(** * Statement diagnostics registry (pkg/sql/stmtdiagnostics)

    A shallow embedding of [statement_diagnostics.go]: the request value,
    the in-memory index of the registry (the two maps, the epoch and the
    PRNG guarded by [r.mu]), the poller's reconciliation, and the three
    catalog-facing entry points [InsertRequest], [CancelRequest] and
    [InsertStatementDiagnostics], run against a model of the three system
    tables they address; then the gossip callback and the polling loop with
    its timer.

    Conventions.
    - Go's [int], [int64] and [time.Duration] are [Z]; the only arithmetic
      the file performs on them ([epoch++], [uint64(reqID)]) has its
      wrap-around written out.
    - [time.Time] is an instant counted in nanoseconds, [0] being Go's zero
      time (the one [IsZero] recognises).  Each critical section reads the
      wall clock as one instant [now], passed as an argument.
    - [float64] is the kernel's binary64 ([PrimFloat.float]).
    - A Go map is a [gmap]; a nil map and an empty map are both [∅] (the
      source allocates the map before its first write). *)

From Stdlib Require Import ZArith Lia.
From Stdlib Require PrimFloat FloatAxioms SpecFloat.
From Stdlib.Strings Require Import Byte.
From stdpp Require Import gmap strings list fin_maps.

Open Scope Z_scope.

(** ** Basic types *)

Abbreviation float64 := PrimFloat.float.
Abbreviation RequestID := Z (only parsing).
Abbreviation CollectedInstanceID := Z (only parsing).
Abbreviation Duration := Z (only parsing).
Abbreviation Time := Z (only parsing).

Definition f64_zero : float64 := PrimFloat.zero.
Definition f64_one : float64 := PrimFloat.one.

(** [Time.IsZero] and [Time.Before]. *)
Definition IsZero (t : Time) : bool := t =? 0.
Definition Before (t u : Time) : bool := t <? u.

(** Two's complement wrap-around of a 64-bit signed [int]. *)
Definition maxInt64 : Z := 2 ^ 63 - 1.
Definition wrap64 (z : Z) : Z := (z + 2 ^ 63) mod 2 ^ 64 - 2 ^ 63.

(** ** Request *)

Record Request := mkRequest {
  fingerprint : string;
  samplingProbability : float64;
  minExecutionLatency : Duration;
  expiresAt : Time
}.

(** The zero value [Request{}]. *)
Definition emptyRequest : Request :=
  {| fingerprint := ""; samplingProbability := f64_zero;
     minExecutionLatency := 0; expiresAt := 0 |}.

Definition isExpired (r : Request) (now : Time) : bool :=
  negb (IsZero (expiresAt r)) && Before (expiresAt r) now.

Definition isConditional (r : Request) : bool :=
  negb (minExecutionLatency r =? 0).

(** ** The registry's guarded state, [r.mu] *)

(** [math/rand] is outside the repository: the generator is the sequence of
    values its successive [Float64] calls return, with the number of calls
    made so far. *)
Record Rand := mkRand {
  outputs : nat → float64;
  drawn : nat
}.

Definition Float64 (g : Rand) : float64 * Rand :=
  (outputs g (drawn g), {| outputs := outputs g; drawn := S (drawn g) |}).

Record Registry := mkRegistry {
  requestFingerprints : gmap Z Request;
  unconditionalOngoing : gmap Z Request;
  epoch : Z;
  rand : Rand
}.

(** [NewRegistry]: both maps nil, epoch zero. *)
Definition NewRegistry (g : Rand) : Registry :=
  {| requestFingerprints := ∅; unconditionalOngoing := ∅; epoch := 0; rand := g |}.

Definition withPending (m : gmap Z Request) (r : Registry) : Registry :=
  {| requestFingerprints := m; unconditionalOngoing := unconditionalOngoing r;
     epoch := epoch r; rand := rand r |}.

Definition withOngoing (m : gmap Z Request) (r : Registry) : Registry :=
  {| requestFingerprints := requestFingerprints r; unconditionalOngoing := m;
     epoch := epoch r; rand := rand r |}.

Definition withEpoch (e : Z) (r : Registry) : Registry :=
  {| requestFingerprints := requestFingerprints r;
     unconditionalOngoing := unconditionalOngoing r;
     epoch := e; rand := rand r |}.

Definition withRand (g : Rand) (r : Registry) : Registry :=
  {| requestFingerprints := requestFingerprints r;
     unconditionalOngoing := unconditionalOngoing r;
     epoch := epoch r; rand := g |}.

(** ** Operations under the mutex *)

(** [findRequestLocked]: an expired pending entry is deleted, and [true] is
    still returned. *)
Definition findRequestLocked (now : Time) (requestID : RequestID) (r : Registry)
  : bool * Registry :=
  match requestFingerprints r !! requestID with
  | Some f =>
      (true,
       if isExpired f now
       then withPending (delete requestID (requestFingerprints r)) r
       else r)
  | None =>
      (match unconditionalOngoing r !! requestID with
       | Some _ => true
       | None => false
       end, r)
  end.

Definition findRequest := findRequestLocked.

Definition addRequestInternalLocked (now : Time) (id : RequestID)
    (queryFingerprint : string) (samplingProbability : float64)
    (minExecutionLatency : Duration) (expiresAt : Time) (r : Registry) : Registry :=
  let '(found, r1) := findRequestLocked now id r in
  if found then r1
  else withPending
         (<[id := mkRequest queryFingerprint samplingProbability
                            minExecutionLatency expiresAt]>
            (requestFingerprints r1)) r1.

Definition cancelRequest (requestID : RequestID) (r : Registry) : Registry :=
  withOngoing (delete requestID (unconditionalOngoing r))
    (withPending (delete requestID (requestFingerprints r)) r).

Definition IsExecLatencyConditionMet (now : Time) (requestID : RequestID)
    (req : Request) (execLatency : Duration) (r : Registry) : bool * Registry :=
  if minExecutionLatency req <=? execLatency then (true, r)
  else if isExpired req now
       then (false, withPending (delete requestID (requestFingerprints r)) r)
       else (false, r).

Definition RemoveOngoing (now : Time) (requestID : RequestID) (req : Request)
    (r : Registry) : Registry :=
  if isConditional req then
    if isExpired req now
    then withPending (delete requestID (requestFingerprints r)) r
    else r
  else withOngoing (delete requestID (unconditionalOngoing r)) r.

(** The [range] loop of [ShouldCollectDiagnostics].  Go visits the entries of
    a map in an unspecified order; [order] is the order of this visit.  The
    loop stops at the first entry whose fingerprint matches. *)
Inductive Scan :=
  | ScanExpired (id : RequestID)
  | ScanFound (id : RequestID) (f : Request)
  | ScanNone.

Fixpoint scanFingerprints (now : Time) (fp : string)
    (order : list (Z * Request)) : Scan :=
  match order with
  | [] => ScanNone
  | (id, f) :: rest =>
      if String.eqb (fingerprint f) fp then
        if isExpired f now then ScanExpired id else ScanFound id f
      else scanFingerprints now fp rest
  end.

(** [req.samplingProbability == 0 || r.mu.rand.Float64() < req.samplingProbability]:
    the generator is advanced only when the probability is not zero. *)
Definition sample (req : Request) (g : Rand) : bool * Rand :=
  if PrimFloat.eqb (samplingProbability req) f64_zero then (true, g)
  else let '(u, g') := Float64 g in
       (PrimFloat.ltb u (samplingProbability req), g').

Definition ShouldCollectDiagnostics (now : Time) (order : list (Z * Request))
    (fp : string) (r : Registry) : (bool * RequestID * Request) * Registry :=
  if decide (requestFingerprints r = ∅) then ((false, 0, emptyRequest), r)
  else
    match scanFingerprints now fp order with
    | ScanExpired id =>
        ((false, 0, emptyRequest),
         withPending (delete id (requestFingerprints r)) r)
    | ScanNone => ((false, 0, emptyRequest), r)
    | ScanFound reqID req =>
        if reqID =? 0 then ((false, 0, emptyRequest), r)
        else
          let r1 :=
            if isConditional req then r
            else withPending (delete reqID (requestFingerprints r))
                   (withOngoing (<[reqID := req]> (unconditionalOngoing r)) r) in
          let '(hit, g) := sample req (rand r1) in
          if hit then ((true, reqID, req), withRand g r1)
          else ((false, 0, emptyRequest), withRand g r1)
    end.

(** ** The catalog: the three system tables *)

(** Modelled from the spec: the schema of
    [system.statement_diagnostics_requests] is not part of the package.  The
    table is keyed by its [id INT PK] column, which is the key of the map
    that holds these rows; a column that is [NULL] is [None]; [completed]
    defaults to [false]. *)
Record RequestRow := mkRequestRow {
  req_completed : bool;
  req_statement_fingerprint : string;
  req_statement_diagnostics_id : option Z;
  req_requested_at : Time;
  req_sampling_probability : option float64;
  req_min_execution_latency : option Duration;
  req_expires_at : option Time
}.

(** Modelled from the spec: a row of [system.statement_diagnostics], keyed
    by [id]. *)
Record DiagnosticsRow := mkDiagnosticsRow {
  diag_statement_fingerprint : string;
  diag_statement : string;
  diag_collected_at : Time;
  diag_bundle_chunks : list Z;
  diag_error : option string
}.

(** Modelled from the spec: a row of [system.statement_bundle_chunks], keyed
    by [id]. *)
Record ChunkRow := mkChunkRow {
  chunk_description : string;
  chunk_data : list byte
}.

(** Modelled from the spec: the three tables, and the id the catalog assigns
    to the next inserted row ([RETURNING id]); an insert under an id already
    present is a primary-key violation. *)
Record Catalog := mkCatalog {
  requests : gmap Z RequestRow;
  diagnostics : gmap Z DiagnosticsRow;
  bundle_chunks : gmap Z ChunkRow;
  next_rowid : Z
}.

(** ** Errors *)

Inductive error :=
  | ErrGossipUnavailable
  | ErrSamplingNotSupported
  | ErrProbabilityOutOfRange
  | ErrProbabilityWithoutLatency
  | ErrCheckPendingNoRow
  | ErrPendingRequestExists
  | ErrInsertRequestNoRow
  | ErrNoPendingRequest
  | ErrCheckCompletedNoRow
  | ErrBundleChunkNoRow
  | ErrInsertDiagnosticsNoRow
  | ErrExecutor (msg : string).

(** A call that does not return: a Go run-time panic, or a loop of the model
    that used up its bound. *)
Inductive halt :=
  | Panicked
  | OutOfFuel.

Inductive Result (A : Type) :=
  | Ok (a : A)
  | Err (e : error)
  | Halt (h : halt).
Arguments Ok {A} a.
Arguments Err {A} e.
Arguments Halt {A} h.

(** ** The internal executor

    Every statement goes through the injected [sqlutil.InternalExecutor],
    which can fail for reasons of its own.  [script] holds what the executor
    does on its next calls, one entry per call: run the statement ([IeOk]),
    return an error ([IeErr]), or return no row and no error ([IeNoRow]);
    once the script is exhausted every statement runs. *)

Inductive IEOutcome :=
  | IeOk
  | IeErr (msg : string)
  | IeNoRow.

Record ExecState := mkExecState {
  cat : Catalog;
  script : list IEOutcome
}.

Definition Exec (A : Type) : Type := ExecState → Result A * ExecState.

Definition ret {A} (a : A) : Exec A := λ s, (Ok a, s).
Definition fail {A} (e : error) : Exec A := λ s, (Err e, s).
Definition halts {A} (h : halt) : Exec A := λ s, (Halt h, s).
Definition bind {A B} (m : Exec A) (k : A → Exec B) : Exec B :=
  λ s, match m s with
       | (Ok a, s') => k a s'
       | (Err e, s') => (Err e, s')
       | (Halt h, s') => (Halt h, s')
       end.

Notation "'let*' x ':=' m 'in' k" := (bind m (λ x, k))
  (at level 10, x name, m at level 100, k at level 200, only parsing).
Notation "'let*' '_' ':=' m 'in' k" := (bind m (λ _, k))
  (at level 10, m at level 100, k at level 200, only parsing).

(** [QueryRowEx]: at most one row comes back ([None] is Go's [row == nil]).
    [stmt] is the statement's effect on the catalog together with the row it
    returns, or the SQL error it raises. *)
Definition QueryRowEx {A} (stmt : Catalog → Result (option A * Catalog))
  : Exec (option A) :=
  λ s,
    let rest := tail (script s) in
    match head (script s) with
    | Some (IeErr msg) => (Err (ErrExecutor msg), mkExecState (cat s) rest)
    | Some IeNoRow => (Ok None, mkExecState (cat s) rest)
    | Some IeOk | None =>
        match stmt (cat s) with
        | Ok (row, c') => (Ok row, mkExecState c' rest)
        | Err e => (Err e, mkExecState (cat s) rest)
        | Halt h => (Halt h, mkExecState (cat s) rest)
        end
    end.

(** [ExecEx]: a statement run for its effect. *)
Definition ExecEx (stmt : Catalog → Result Catalog) : Exec unit :=
  λ s,
    let rest := tail (script s) in
    match head (script s) with
    | Some (IeErr msg) => (Err (ErrExecutor msg), mkExecState (cat s) rest)
    | Some IeNoRow | Some IeOk | None =>
        match stmt (cat s) with
        | Ok c' => (Ok tt, mkExecState c' rest)
        | Err e => (Err e, mkExecState (cat s) rest)
        | Halt h => (Halt h, mkExecState (cat s) rest)
        end
    end.

(** [db.Txn]: the closure's writes are kept when it returns [nil] and
    discarded when it returns an error.  The closure is run once; the
    retries [kv] may make of it are outside the package. *)
Definition Txn {A} (body : Exec A) : Exec A :=
  λ s, match body s with
       | (Ok a, s') => (Ok a, s')
       | (Err e, s') => (Err e, mkExecState (cat s) (script s'))
       | (Halt h, s') => (Halt h, mkExecState (cat s) (script s'))
       end.

(** ** The SQL statements the package issues *)

(** [expires_at IS NULL OR expires_at > now()] *)
Definition notExpiredSQL (now : Time) (row : RequestRow) : bool :=
  match req_expires_at row with
  | None => true
  | Some t => now <? t
  end.

Definition withRequests (m : gmap Z RequestRow) (c : Catalog) : Catalog :=
  {| requests := m; diagnostics := diagnostics c;
     bundle_chunks := bundle_chunks c; next_rowid := next_rowid c |}.

(** [stmt-diag-check-pending] *)
Definition isPendingFor (now : Time) (fp : string) (row : RequestRow) : bool :=
  negb (req_completed row)
  && String.eqb (req_statement_fingerprint row) fp
  && notExpiredSQL now row.

Definition checkPendingStmt (now : Time) (fp : string) (c : Catalog)
  : Result (option Z * Catalog) :=
  Ok (Some (Z.of_nat (size (filter (λ kv, isPendingFor now fp kv.2 = true)
                              (requests c)))), c).

(** [INSERT INTO system.statement_diagnostics_requests (...) RETURNING id] *)
Definition insertRequestStmt (row : RequestRow) (c : Catalog)
  : Result (option Z * Catalog) :=
  let id := next_rowid c in
  match requests c !! id with
  | Some _ => Err (ErrExecutor "duplicate key value violates unique constraint")
  | None =>
      Ok (Some id,
          {| requests := <[id := row]> (requests c);
             diagnostics := diagnostics c;
             bundle_chunks := bundle_chunks c;
             next_rowid := id + 1 |})
  end.

(** ['1970-01-01'], in nanoseconds since the zero time. *)
Definition unixEpoch : Time := 62135596800 * 1000000000.

(** [stmt-diag-cancel-request] *)
Definition cancelRequestStmt (now : Time) (requestID : Z) (c : Catalog)
  : Result (option Z * Catalog) :=
  match requests c !! requestID with
  | Some row =>
      if negb (req_completed row) && notExpiredSQL now row then
        Ok (Some requestID,
            withRequests
              (<[requestID :=
                   mkRequestRow (req_completed row) (req_statement_fingerprint row)
                     (req_statement_diagnostics_id row) (req_requested_at row)
                     (req_sampling_probability row) (req_min_execution_latency row)
                     (Some unixEpoch)]> (requests c)) c)
      else Ok (None, c)
  | None => Ok (None, c)
  end.

(** [stmt-diag-check-completed] *)
Definition checkCompletedStmt (requestID : Z) (c : Catalog)
  : Result (option Z * Catalog) :=
  Ok (Some match requests c !! requestID with
           | Some row => if req_completed row then 0 else 1
           | None => 0
           end, c).

(** [stmt-bundle-chunks-insert] *)
Definition insertChunkStmt (chunk : list byte) (c : Catalog)
  : Result (option Z * Catalog) :=
  let id := next_rowid c in
  match bundle_chunks c !! id with
  | Some _ => Err (ErrExecutor "duplicate key value violates unique constraint")
  | None =>
      Ok (Some id,
          {| requests := requests c;
             diagnostics := diagnostics c;
             bundle_chunks :=
               <[id := mkChunkRow "statement diagnostics bundle" chunk]>
                 (bundle_chunks c);
             next_rowid := id + 1 |})
  end.

(** [stmt-diag-insert] *)
Definition insertDiagnosticsStmt (row : DiagnosticsRow) (c : Catalog)
  : Result (option Z * Catalog) :=
  let id := next_rowid c in
  match diagnostics c !! id with
  | Some _ => Err (ErrExecutor "duplicate key value violates unique constraint")
  | None =>
      Ok (Some id,
          {| requests := requests c;
             diagnostics := <[id := row]> (diagnostics c);
             bundle_chunks := bundle_chunks c;
             next_rowid := id + 1 |})
  end.

(** [stmt-diag-mark-completed] *)
Definition markCompletedStmt (diagID requestID : Z) (c : Catalog)
  : Result Catalog :=
  Ok match requests c !! requestID with
     | Some row =>
         withRequests
           (<[requestID :=
                mkRequestRow true (req_statement_fingerprint row)
                  (Some diagID) (req_requested_at row)
                  (req_sampling_probability row) (req_min_execution_latency row)
                  (req_expires_at row)]> (requests c)) c
     | None => c
     end.

(** [stmt-diag-add-completed] *)
Definition addCompletedStmt (fp : string) (diagID : Z) (collectionTime : Time)
    (c : Catalog) : Result Catalog :=
  match insertRequestStmt
          (mkRequestRow true fp (Some diagID) collectionTime None None None) c with
  | Ok (_, c') => Ok c'
  | Err e => Err e
  | Halt h => Halt h
  end.

(** ** The node: registry, catalog access and gossip *)

Inductive GossipKey :=
  | KeyGossipStatementDiagnosticsRequest
  | KeyGossipStatementDiagnosticsRequestCancellation.

(** What the registry reads from its collaborators: whether gossip is
    available ([r.gossip.OptionalErr]), whether the cluster version
    [SampledStmtDiagReqs] is active, and the setting
    [sql.stmt_diagnostics.bundle_chunk_size]. *)
Record Env := mkEnv {
  gossipAvailable : bool;
  sampledStmtDiagReqsActive : bool;
  bundleChunkSize : Z
}.

Record World := mkWorld {
  registry : Registry;
  store : ExecState;
  gossipSent : list (GossipKey * list byte)
}.

(** [uint64(reqID)] and [binary.LittleEndian.PutUint64]. *)
Definition uint64 (z : Z) : Z := z mod 2 ^ 64.

Definition byteOfZ (z : Z) : byte :=
  default x00 (Byte.of_N (Z.to_N (z mod 256))).

Definition PutUint64 (v : Z) : list byte :=
  map (λ i, byteOfZ (Z.shiftr v (8 * Z.of_nat i))) (seq 0 8).

(** [g.AddInfo(key, buf, 0)]: a failure is only logged, so the call is
    recorded and control continues either way. *)
Definition AddInfo (key : GossipKey) (reqID : RequestID) (w : World) : World :=
  {| registry := registry w; store := store w;
     gossipSent := gossipSent w ++ [(key, PutUint64 (uint64 reqID))] |}.

(** *** [InsertRequest] *)

Definition f64_ne_zero (x : float64) : bool := negb (PrimFloat.eqb x f64_zero).

(** The closure passed to [db.Txn] by [insertRequestInternal]; it yields the
    captured [reqID] and [expiresAt]. *)
Definition insertRequestTxn (now : Time) (stmtFingerprint : string)
    (samplingProbability : float64) (minExecutionLatency expiresAfter : Duration)
  : Exec (RequestID * Time) :=
  let* row := QueryRowEx (checkPendingStmt now stmtFingerprint) in
  match row with
  | None => fail ErrCheckPendingNoRow
  | Some count =>
      if negb (count =? 0) then fail ErrPendingRequestExists
      else
        let expiresAt := if expiresAfter =? 0 then 0 else now + expiresAfter in
        let* row :=
          QueryRowEx
            (insertRequestStmt
               (mkRequestRow false stmtFingerprint None now
                  (if f64_ne_zero samplingProbability
                   then Some samplingProbability else None)
                  (if minExecutionLatency =? 0
                   then None else Some minExecutionLatency)
                  (if expiresAfter =? 0 then None else Some expiresAt))) in
        match row with
        | None => fail ErrInsertRequestNoRow
        | Some reqID => ret (reqID, expiresAt)
        end
  end.

Definition insertRequestInternal (env : Env) (now : Time)
    (stmtFingerprint : string) (samplingProbability : float64)
    (minExecutionLatency expiresAfter : Duration) (w : World)
  : Result RequestID * World :=
  if negb (gossipAvailable env) then (Err ErrGossipUnavailable, w)
  else if negb (sampledStmtDiagReqsActive env) && f64_ne_zero samplingProbability
  then (Err ErrSamplingNotSupported, w)
  else if PrimFloat.ltb samplingProbability f64_zero
          || PrimFloat.ltb f64_one samplingProbability
  then (Err ErrProbabilityOutOfRange, w)
  else if f64_ne_zero samplingProbability && (minExecutionLatency =? 0)
  then (Err ErrProbabilityWithoutLatency, w)
  else
    match Txn (insertRequestTxn now stmtFingerprint samplingProbability
                 minExecutionLatency expiresAfter) (store w) with
    | (Err e, s') => (Err e, mkWorld (registry w) s' (gossipSent w))
    | (Halt h, s') => (Halt h, mkWorld (registry w) s' (gossipSent w))
    | (Ok (reqID, expiresAt), s') =>
        let r1 := withEpoch (wrap64 (epoch (registry w) + 1)) (registry w) in
        let r2 := addRequestInternalLocked now reqID stmtFingerprint
                    samplingProbability minExecutionLatency expiresAt r1 in
        (Ok reqID,
         AddInfo KeyGossipStatementDiagnosticsRequest reqID
           (mkWorld r2 s' (gossipSent w)))
    end.

Definition InsertRequest (env : Env) (now : Time) (stmtFingerprint : string)
    (samplingProbability : float64) (minExecutionLatency expiresAfter : Duration)
    (w : World) : Result unit * World :=
  match insertRequestInternal env now stmtFingerprint samplingProbability
          minExecutionLatency expiresAfter w with
  | (Ok _, w') => (Ok tt, w')
  | (Err e, w') => (Err e, w')
  | (Halt h, w') => (Halt h, w')
  end.

(** *** [CancelRequest] *)

Definition CancelRequest (env : Env) (now : Time) (requestID : Z) (w : World)
  : Result unit * World :=
  if negb (gossipAvailable env) then (Err ErrGossipUnavailable, w)
  else
    match QueryRowEx (cancelRequestStmt now requestID) (store w) with
    | (Err e, s') => (Err e, mkWorld (registry w) s' (gossipSent w))
    | (Halt h, s') => (Halt h, mkWorld (registry w) s' (gossipSent w))
    | (Ok None, s') =>
        (Err ErrNoPendingRequest, mkWorld (registry w) s' (gossipSent w))
    | (Ok (Some _), s') =>
        let reqID := requestID in
        (Ok tt,
         AddInfo KeyGossipStatementDiagnosticsRequestCancellation reqID
           (mkWorld (cancelRequest reqID (registry w)) s' (gossipSent w)))
    end.

(** *** [InsertStatementDiagnostics] *)

(** The chunking loop [for len(bundle) > 0 { ... }].  [fuel] bounds the
    number of iterations; slicing [chunk[:chunkSize]] with a negative bound
    is a run-time panic. *)
Fixpoint insertChunks (fuel : nat) (chunkSize : Z) (bundle : list byte)
    (bundleChunksVal : list Z) : Exec (list Z) :=
  match bundle with
  | [] => ret bundleChunksVal
  | _ :: _ =>
      match fuel with
      | O => halts OutOfFuel
      | S fuel' =>
          if (Z.of_nat (length bundle) >? chunkSize) && (chunkSize <? 0)
          then halts Panicked
          else
            let chunk :=
              if Z.of_nat (length bundle) >? chunkSize
              then take (Z.to_nat chunkSize) bundle
              else bundle in
            let bundle' := drop (length chunk) bundle in
            let* row := QueryRowEx (insertChunkStmt chunk) in
            match row with
            | None => fail ErrBundleChunkNoRow
            | Some chunkID =>
                insertChunks fuel' chunkSize bundle' (bundleChunksVal ++ [chunkID])
            end
      end
  end.

(** The closure passed to [db.Txn]; it yields the captured [diagID], which
    is still [0] when the closure returns early. *)
Definition insertStatementDiagnosticsTxn (fuel : nat) (env : Env) (now : Time)
    (requestID : RequestID) (stmtFingerprint stmt : string)
    (bundle : list byte) (collectionErr : option string)
  : Exec CollectedInstanceID :=
  let* proceed :=
    (if negb (requestID =? 0) then
       let* row := QueryRowEx (checkCompletedStmt requestID) in
       match row with
       | None => fail ErrCheckCompletedNoRow
       | Some cnt => ret (negb (cnt =? 0))
       end
     else ret true) in
  if negb proceed then ret 0
  else
    let errorVal := collectionErr in
    let* bundleChunksVal := insertChunks fuel (bundleChunkSize env) bundle [] in
    let collectionTime := now in
    let* row :=
      QueryRowEx
        (insertDiagnosticsStmt
           (mkDiagnosticsRow stmtFingerprint stmt collectionTime
              bundleChunksVal errorVal)) in
    match row with
    | None => fail ErrInsertDiagnosticsNoRow
    | Some diagID =>
        let* _ :=
          (if negb (requestID =? 0)
           then ExecEx (markCompletedStmt diagID requestID)
           else ExecEx (addCompletedStmt stmtFingerprint diagID collectionTime)) in
        ret diagID
    end.

Definition InsertStatementDiagnostics (fuel : nat) (env : Env) (now : Time)
    (requestID : RequestID) (stmtFingerprint stmt : string)
    (bundle : list byte) (collectionErr : option string) (w : World)
  : Result CollectedInstanceID * World :=
  let '(res, s') :=
    Txn (insertStatementDiagnosticsTxn fuel env now requestID stmtFingerprint
           stmt bundle collectionErr) (store w) in
  (res, mkWorld (registry w) s' (gossipSent w)).

(** ** The poller's reconciliation, [pollRequests] *)

(** One row of the poll's [SELECT]: [id], [statement_fingerprint],
    [min_execution_latency], [expires_at] and, when the column was selected
    and is not [NULL], [sampling_probability]. *)
Record PollRow := mkPollRow {
  pr_id : Z;
  pr_statement_fingerprint : string;
  pr_min_execution_latency : option Duration;
  pr_expires_at : option Time;
  pr_sampling_probability : option float64
}.

(** [stmt-diag-poll] *)
Definition pollStmt (supported : bool) (now : Time) (c : Catalog)
  : Result (list PollRow) :=
  Ok (map (λ kv : Z * RequestRow,
             mkPollRow kv.1 (req_statement_fingerprint kv.2)
               (req_min_execution_latency kv.2) (req_expires_at kv.2)
               (if supported then req_sampling_probability kv.2 else None))
        (map_to_list
           (filter (λ kv : Z * RequestRow,
                      (negb (req_completed kv.2) && notExpiredSQL now kv.2) = true)
              (requests c)))).

(** [QueryIteratorEx] drained by [it.Next]: the rows, or the error of
    either. *)
Definition QueryIteratorEx {A} (stmt : Catalog → Result (list A)) (s : ExecState)
  : Result (list A) :=
  match head (script s) with
  | Some (IeErr msg) => Err (ErrExecutor msg)
  | Some IeNoRow => Ok []
  | Some IeOk | None => stmt (cat s)
  end.

(** What other goroutines of the node do to [r.mu] while the poller does not
    hold the mutex.  [OpInsertLocal] is the critical section of
    [insertRequestInternal]. *)
Inductive LocalOp :=
  | OpFindRequest (now : Time) (id : RequestID)
  | OpCancelRequest (id : RequestID)
  | OpInsertLocal (now : Time) (id : RequestID) (req : Request)
  | OpShouldCollect (now : Time) (order : list (Z * Request)) (fp : string)
  | OpIsExecLatencyConditionMet (now : Time) (id : RequestID) (req : Request)
      (execLatency : Duration)
  | OpRemoveOngoing (now : Time) (id : RequestID) (req : Request).

Definition insertLocal (now : Time) (id : RequestID) (req : Request)
    (r : Registry) : Registry :=
  addRequestInternalLocked now id (fingerprint req) (samplingProbability req)
    (minExecutionLatency req) (expiresAt req)
    (withEpoch (wrap64 (epoch r + 1)) r).

Definition runLocal (op : LocalOp) (r : Registry) : Registry :=
  match op with
  | OpFindRequest now id => (findRequest now id r).2
  | OpCancelRequest id => cancelRequest id r
  | OpInsertLocal now id req => insertLocal now id req r
  | OpShouldCollect now order fp => (ShouldCollectDiagnostics now order fp r).2
  | OpIsExecLatencyConditionMet now id req lat =>
      (IsExecLatencyConditionMet now id req lat r).2
  | OpRemoveOngoing now id req => RemoveOngoing now id req r
  end.

Definition runLocals (ops : list LocalOp) (r : Registry) : Registry :=
  foldl (λ acc op, runLocal op acc) r ops.

(** One turn of the loop "until we run the query without straddling an epoch
    increment": the catalog as this read finds it, and what happens to the
    registry meanwhile. *)
Record PollAttempt := mkPollAttempt {
  attemptStore : ExecState;
  attemptSqlNow : Time;
  concurrent : list LocalOp
}.

(** The body of the [for _, row := range rows] loop; [ids] is the
    [util.FastIntSet]. *)
Definition applyRow (supported : bool) (now : Time)
    (acc : gset Z * Registry) (row : PollRow) : gset Z * Registry :=
  let id := pr_id row in
  let stmtFingerprint := pr_statement_fingerprint row in
  let minExecutionLatency := default 0 (pr_min_execution_latency row) in
  let expiresAt := default 0 (pr_expires_at row) in
  let samplingProbability :=
    if supported then default f64_zero (pr_sampling_probability row)
    else f64_zero in
  ({[id]} ∪ acc.1,
   addRequestInternalLocked now id stmtFingerprint samplingProbability
     minExecutionLatency expiresAt acc.2).

(** The part of [pollRequests] that runs with the mutex held. *)
Definition applyPoll (supported : bool) (now : Time) (rows : list PollRow)
    (r : Registry) : Registry :=
  let '(ids, r1) := foldl (applyRow supported now) (∅, r) rows in
  withPending
    (filter (λ kv : Z * Request, ¬ (kv.1 ∉ ids ∨ isExpired kv.2 now = true))
       (requestFingerprints r1))
    r1.

Fixpoint pollRequests (env : Env) (now : Time) (attempts : list PollAttempt)
    (r : Registry) : Result unit * Registry :=
  match attempts with
  | [] => (Halt OutOfFuel, r)
  | a :: rest =>
      let epoch0 := epoch r in
      let r1 := runLocals (concurrent a) r in
      match QueryIteratorEx
              (pollStmt (sampledStmtDiagReqsActive env) (attemptSqlNow a))
              (attemptStore a) with
      | Err e => (Err e, r1)
      | Halt h => (Halt h, r1)
      | Ok rows =>
          if negb (epoch r1 =? epoch0) then pollRequests env now rest r1
          else (Ok tt, applyPoll (sampledStmtDiagReqsActive env) now rows r1)
      end
  end.

(** Every operation on the in-memory index. *)
Inductive RegOp :=
  | OpLocal (op : LocalOp)
  | OpPoll (env : Env) (now : Time) (attempts : list PollAttempt).

Definition runOp (op : RegOp) (r : Registry) : Registry :=
  match op with
  | OpLocal op => runLocal op r
  | OpPoll env now attempts => (pollRequests env now attempts r).2
  end.

Definition runOps (ops : list RegOp) (r : Registry) : Registry :=
  foldl (λ acc op, runOp op acc) r ops.

(** The order of a [range] over the pending map is some enumeration of
    it. *)
Definition rangeOrder (order : list (Z * Request)) (r : Registry) : Prop :=
  order ≡ₚ map_to_list (requestFingerprints r).

(** The two maps share no id. *)
Definition disjointIndex (r : Registry) : Prop :=
  ∀ id, requestFingerprints r !! id = None ∨ unconditionalOngoing r !! id = None.

(** ** Vocabulary of the statements *)

(** No pending request carries the fingerprint [fp]. *)
Definition noPendingFor (fp : string) (r : Registry) : Prop :=
  ∀ id req, requestFingerprints r !! id = Some req → fingerprint req ≠ fp.

(** The [Request] that [pollRequests] builds from a row. *)
Definition rowRequest (supported : bool) (row : PollRow) : Request :=
  mkRequest (pr_statement_fingerprint row)
    (if supported then default f64_zero (pr_sampling_probability row)
     else f64_zero)
    (default 0 (pr_min_execution_latency row))
    (default 0 (pr_expires_at row)).

(** The rows an attempt of the poller reads (none when the read fails). *)
Definition attemptRows (env : Env) (a : PollAttempt) : list PollRow :=
  match QueryIteratorEx
          (pollStmt (sampledStmtDiagReqsActive env) (attemptSqlNow a))
          (attemptStore a) with
  | Ok rows => rows
  | _ => []
  end.




(** ** Sample data *)

Definition f64_half : float64 := PrimFloat.div PrimFloat.one PrimFloat.two.

Definition exEnv : Env :=
  {| gossipAvailable := true; sampledStmtDiagReqsActive := true;
     bundleChunkSize := 1048576 |}.

Definition exRand : Rand := {| outputs := λ _, f64_half; drawn := 0 |}.

Definition emptyCatalog : Catalog :=
  {| requests := ∅; diagnostics := ∅; bundle_chunks := ∅; next_rowid := 1 |}.

Definition exWorld : World :=
  {| registry := NewRegistry exRand;
     store := {| cat := emptyCatalog; script := [] |};
     gossipSent := [] |}.

(** An unconditional request for ["Q"] that expires at instant 110. *)
Definition exRequestQ : Request :=
  {| fingerprint := "Q"; samplingProbability := f64_zero;
     minExecutionLatency := 0; expiresAt := 110 |}.

(** A second unconditional request for ["Q"], never expiring. *)
Definition exRequestQ' : Request :=
  {| fingerprint := "Q"; samplingProbability := f64_zero;
     minExecutionLatency := 0; expiresAt := 0 |}.

(** [InsertRequest("Q", 0, 0, 10)] at instant 100 on a fresh node... *)
Definition exWorld1 : World :=
  (InsertRequest exEnv 100 "Q" f64_zero 0 10 exWorld).2.

(** ... a first execution of ["Q"] at instant 105 ... *)
Definition exWorld2 : World :=
  {| registry :=
       (ShouldCollectDiagnostics 105
          (map_to_list (requestFingerprints (registry exWorld1))) "Q"
          (registry exWorld1)).2;
     store := store exWorld1;
     gossipSent := gossipSent exWorld1 |}.


(** A registry whose only pending request is unconditional and sampled with
    probability one half (the poller can load such a row; [InsertRequest]
    rejects it). *)
Definition exRequestS : Request :=
  {| fingerprint := "S"; samplingProbability := f64_half;
     minExecutionLatency := 0; expiresAt := 0 |}.

Definition exRegistryS : Registry :=
  {| requestFingerprints := {[7 := exRequestS]}; unconditionalOngoing := ∅;
     epoch := 0; rand := exRand |}.

(** What the critical section of [pollRequests] does to the registry [r0] it
    finds, given the rows read: the ongoing map, the epoch and the generator
    are untouched; a pending entry stays, unchanged, exactly when its id is
    among the rows and it has not expired; a row whose id is in neither map
    becomes a pending entry unless it has expired already; nothing else
    appears. *)
Definition pollFrame (supported : bool) (now : Time) (rows : list PollRow)
    (r0 r' : Registry) : Prop :=
  unconditionalOngoing r' = unconditionalOngoing r0
  ∧ epoch r' = epoch r0
  ∧ rand r' = rand r0
  ∧ (∀ id f, requestFingerprints r0 !! id = Some f →
       requestFingerprints r' !! id =
         if decide (id ∈ pr_id <$> rows)
         then (if isExpired f now then None else Some f)
         else None)
  ∧ (∀ row, row ∈ rows →
       requestFingerprints r0 !! pr_id row = None →
       unconditionalOngoing r0 !! pr_id row = None →
       requestFingerprints r' !! pr_id row =
         if isExpired (rowRequest supported row) now then None
         else Some (rowRequest supported row))
  ∧ (∀ id, requestFingerprints r0 !! id = None →
       is_Some (unconditionalOngoing r0 !! id) ∨ id ∉ pr_id <$> rows →
       requestFingerprints r' !! id = None).

(** The concurrent operations of the first [k] attempts, in order. *)
Definition interleaved (k : nat) (attempts : list PollAttempt) : list LocalOp :=
  concat (concurrent <$> take k attempts).

(** A catalog with request 1 (unexpired, for ["Q"]) and request 2 (for
    ["R"]), as a poll at instant 105 reads it, and a registry that knows
    request 1 as pending and a request 3 the catalog no longer lists. *)
Definition exPollCatalog : Catalog :=
  {| requests :=
       {[ 1 := mkRequestRow false "Q" None 100 None None (Some 110);
          2 := mkRequestRow false "R" None 101 None (Some 5) None ]};
     diagnostics := ∅; bundle_chunks := ∅; next_rowid := 3 |}.

Definition exPollAttempt : PollAttempt :=
  {| attemptStore := {| cat := exPollCatalog; script := [] |};
     attemptSqlNow := 105; concurrent := [] |}.

Definition exPollRegistry : Registry :=
  {| requestFingerprints :=
       {[ 1 := exRequestQ; 3 := mkRequest "T" f64_zero 0 0 ]};
     unconditionalOngoing := ∅; epoch := 4; rand := exRand |}.

(** What processing a row leaves under the row's id in the pending map. *)
Definition rowOutcome (supported : bool) (now : Time) (r : Registry)
    (row : PollRow) : option Request :=
  match requestFingerprints r !! pr_id row with
  | Some f => if isExpired f now then None else Some f
  | None =>
      match unconditionalOngoing r !! pr_id row with
      | Some _ => None
      | None => Some (rowRequest supported row)
      end
  end.

(** A cluster on which the version [SampledStmtDiagReqs] is not active
    yet. *)
Definition exEnvOld : Env :=
  {| gossipAvailable := true; sampledStmtDiagReqsActive := false;
     bundleChunkSize := 1048576 |}.

(** The catalog lists request [id] as not completed: the row the check
    [WHERE id = $1 AND completed = false] counts. *)
Definition isOpen (c : Catalog) (id : Z) : bool :=
  match requests c !! id with
  | Some row => negb (req_completed row)
  | None => false
  end.

(** [⌈n/s⌉]. *)
Definition ceilDiv (n s : Z) : Z := (n + s - 1) / s.

(** The row [stmt-bundle-chunks-insert] writes for a chunk. *)
Definition chunkRowOf (chunk : list byte) : ChunkRow :=
  mkChunkRow "statement diagnostics bundle" chunk.

(** The arguments of one [InsertStatementDiagnostics] call, the request id
    apart, and a series of such calls for the same request, their
    transactions running one after the other. *)
Record DiagCall := mkDiagCall {
  call_fuel : nat;
  call_now : Time;
  call_fingerprint : string;
  call_stmt : string;
  call_bundle : list byte;
  call_error : option string
}.

Definition runDiagCall (env : Env) (requestID : RequestID) (w : World)
    (c : DiagCall) : World :=
  (InsertStatementDiagnostics (call_fuel c) env (call_now c) requestID
     (call_fingerprint c) (call_stmt c) (call_bundle c) (call_error c) w).2.

Definition raceDiagCalls (env : Env) (requestID : RequestID)
    (calls : list DiagCall) (w : World) : World :=
  foldl (runDiagCall env requestID) w calls.

(** A setting of sixteen bytes per chunk, a bundle of twenty bytes, and a
    catalog in which request 7 is completed already. *)
Definition exEnv16 : Env :=
  {| gossipAvailable := true; sampledStmtDiagReqsActive := true;
     bundleChunkSize := 16 |}.

Definition exBundle20 : list byte := replicate 20 x2a.

Definition exDoneCatalog : Catalog :=
  {| requests := {[ 7 := mkRequestRow true "Q" (Some 8) 100 None None None ]};
     diagnostics := {[ 8 := mkDiagnosticsRow "Q" "SELECT 1" 101 [] None ]};
     bundle_chunks := ∅; next_rowid := 9 |}.

Definition exDoneWorld : World :=
  {| registry := NewRegistry exRand;
     store := {| cat := exDoneCatalog; script := [] |};
     gossipSent := [] |}.


(** The executor runs the next statement, rather than failing it. *)
Definition executesNext (s : ExecState) : bool :=
  match head (script s) with
  | None | Some IeOk => true
  | Some (IeErr _) | Some IeNoRow => false
  end.

(** The effect of the last statement of the completion transaction. *)
Definition recordCompletion (requestID : RequestID) (stmtFingerprint : string)
    (diagID : CollectedInstanceID) (collectionTime : Time) : Exec unit :=
  if negb (requestID =? 0)
  then ExecEx (markCompletedStmt diagID requestID)
  else ExecEx (addCompletedStmt stmtFingerprint diagID collectionTime).

(** ** The rest of the package *)

(** The validator of [sql.stmt_diagnostics.bundle_chunk_size]: [None] is
    Go's [nil]. *)
Definition bundleChunkSizeValidate (val : Z) : option string :=
  if val <? 16 then Some "chunk size must be at least 16 bytes" else None.

(** [binary.LittleEndian.Uint64]: the first eight bytes, least significant
    first; a shorter slice is an index out of range. *)
Definition leValue (b : list byte) : Z :=
  foldr (λ x acc, Z.of_N (Byte.to_N x) + 256 * acc) 0 b.

Definition Uint64 (b : list byte) : Result Z :=
  if (length b <? 8)%nat then Halt Panicked else Ok (leValue (take 8 b)).

(** [RequestID(u)] for a [uint64]: the conversion to [int] keeps the bits. *)
Definition RequestIDOfUint64 (u : Z) : RequestID := wrap64 u.

(** The two channels of capacity one that carry gossip notifications to the
    polling loop: [None] is an empty buffer. *)
Record Channels := mkChannels {
  gossipUpdateChan : option RequestID;
  gossipCancelChan : option RequestID
}.

(** [select { case ch <- v: default: }] on a channel of capacity one: the
    value is taken (buffered, or handed to the reader) when nothing waits in
    the channel, and dropped otherwise. *)
Definition trySend (ch : option RequestID) (v : RequestID) : option RequestID :=
  match ch with
  | None => Some v
  | Some _ => ch
  end.

(** [gossipNotification].  The names of the two gossip keys are constants of
    [pkg/gossip], taken as the parameter [keyName].  The value to send is
    computed before the send is attempted. *)
Definition gossipNotification (keyName : GossipKey → string) (s : string)
    (rawBytes : list byte) (ch : Channels) : Result Channels :=
  if String.eqb s (keyName KeyGossipStatementDiagnosticsRequest) then
    match Uint64 rawBytes with
    | Ok u =>
        Ok (mkChannels (trySend (gossipUpdateChan ch) (RequestIDOfUint64 u))
              (gossipCancelChan ch))
    | Err e => Err e
    | Halt h => Halt h
    end
  else if String.eqb s (keyName KeyGossipStatementDiagnosticsRequestCancellation)
  then
    match Uint64 rawBytes with
    | Ok u =>
        Ok (mkChannels (gossipUpdateChan ch)
              (trySend (gossipCancelChan ch) (RequestIDOfUint64 u)))
    | Err e => Err e
    | Halt h => Halt h
    end
  else Ok ch.

(** The local variables of [poll]: the instant of the last poll, the
    deadline the timer was last set for, and the timer.  [timeutil.Timer] is
    not part of the package: it is [None] when it was never set, was stopped
    or has fired, and [Some t] when it is set to fire at [t]. *)
Record PollTimer := mkPollTimer {
  lastPoll : Time;
  deadline : Time;
  timer : option Time
}.

(** The locals as [poll] declares them. *)
Definition newPollTimer : PollTimer :=
  {| lastPoll := 0; deadline := 0; timer := None |}.

(** [maybeResetTimer], for the value [interval] that [pollingInterval.Get]
    returns; [timer.Reset(timeutil.Until(deadline))] sets the timer to fire
    at [deadline]. *)
Definition maybeResetTimer (interval : Duration) (t : PollTimer) : PollTimer :=
  if interval <=? 0 then mkPollTimer (lastPoll t) (deadline t) None
  else
    let newDeadline := lastPoll t + interval in
    if IsZero (deadline t) || negb (deadline t =? newDeadline)
    then mkPollTimer (lastPoll t) newDeadline (Some newDeadline)
    else t.

(** What one [select] of the polling loop receives. *)
Inductive PollEvent :=
  | EvIntervalChanged
  | EvGossipUpdate (reqID : RequestID)
  | EvGossipCancel (reqID : RequestID)
  | EvTimer
  | EvDone.

(** The closure [poll] of the polling loop: [pollRequests], then
    [lastPoll = timeutil.Now()] unless the poll failed under a cancelled
    context.  [after] is the instant read when the poll is over; the flag
    tells whether the closure returned. *)
Definition pollOnce (env : Env) (pollNow after : Time)
    (attempts : list PollAttempt) (ctxCancelled : bool) (r : Registry)
    (t : PollTimer) : Registry * PollTimer * bool :=
  match pollRequests env pollNow attempts r with
  | (Ok _, r') => (r', mkPollTimer after (deadline t) (timer t), true)
  | (Err _, r') =>
      if ctxCancelled then (r', t, true)
      else (r', mkPollTimer after (deadline t) (timer t), true)
  | (Halt _, r') => (r', t, false)
  end.

(** One turn of the [for] loop of [poll], for the event its [select]
    receives: the registry and the locals after the turn, and whether the
    loop goes around again.  [now] is the instant [findRequest] reads,
    [pollNow] the one [pollRequests] reads. *)
Definition pollIteration (env : Env) (interval : Duration)
    (now pollNow after : Time) (attempts : list PollAttempt)
    (ctxCancelled : bool) (ev : PollEvent) (r : Registry) (t : PollTimer)
  : Registry * PollTimer * bool :=
  let t1 := maybeResetTimer interval t in
  match ev with
  | EvIntervalChanged => (r, t1, true)
  | EvGossipUpdate reqID =>
      let '(found, r1) := findRequest now reqID r in
      if found then (r1, t1, true)
      else pollOnce env pollNow after attempts ctxCancelled r1 t1
  | EvGossipCancel reqID => (cancelRequest reqID r, t1, true)
  | EvTimer =>
      pollOnce env pollNow after attempts ctxCancelled r
        (mkPollTimer (lastPoll t1) (deadline t1) None)
  | EvDone => (r, t1, false)
  end.

(** A conditional request for ["R"] (at least five units of latency), and a
    registry that holds it as pending request 2. *)
Definition exRequestR : Request :=
  {| fingerprint := "R"; samplingProbability := f64_zero;
     minExecutionLatency := 5; expiresAt := 0 |}.

Definition exRegistryR : Registry :=
  {| requestFingerprints := {[2 := exRequestR]}; unconditionalOngoing := ∅;
     epoch := 0; rand := exRand |}.

(** No two pending requests carry the fingerprint [fp]. *)
Definition onePendingFor (fp : string) (r : Registry) : Prop :=
  ∀ i j f g,
    requestFingerprints r !! i = Some f → requestFingerprints r !! j = Some g →
    fingerprint f = fp → fingerprint g = fp → i = j.

(** The catalog lists a request for [fp] that is neither completed nor
    expired: a row the check of [insertRequestInternal] counts. *)
Definition hasPending (now : Time) (fp : string) (c : Catalog) : Prop :=
  ∃ j row, requests c !! j = Some row ∧ isPendingFor now fp row = true.

(** The arguments pass the checks [insertRequestInternal] makes before it
    opens its transaction. *)
Definition passesChecks (env : Env) (samplingProbability : float64)
    (minExecutionLatency : Duration) : bool :=
  gossipAvailable env
  && negb (negb (sampledStmtDiagReqsActive env) && f64_ne_zero samplingProbability)
  && negb (PrimFloat.ltb samplingProbability f64_zero
           || PrimFloat.ltb f64_one samplingProbability)
  && negb (f64_ne_zero samplingProbability && (minExecutionLatency =? 0)).

(** For each fingerprint the catalog lists at most one request that is
    neither completed nor expired. *)
Definition uniquePending (now : Time) (c : Catalog) : Prop :=
  ∀ fp i j ri rj,
    requests c !! i = Some ri → requests c !! j = Some rj →
    isPendingFor now fp ri = true → isPendingFor now fp rj = true → i = j.

(** The row [stmt-diag-cancel-request] leaves in place of [row]. *)
Definition cancelledRow (row : RequestRow) : RequestRow :=
  mkRequestRow (req_completed row) (req_statement_fingerprint row)
    (req_statement_diagnostics_id row) (req_requested_at row)
    (req_sampling_probability row) (req_min_execution_latency row)
    (Some unixEpoch).

(** The row [stmt-diag-mark-completed] leaves in place of [row]. *)
Definition completedRow (diagID : CollectedInstanceID) (row : RequestRow)
  : RequestRow :=
  mkRequestRow true (req_statement_fingerprint row) (Some diagID)
    (req_requested_at row) (req_sampling_probability row)
    (req_min_execution_latency row) (req_expires_at row).

(** The number of local inserts among operations on the registry. *)
Definition isInsert (op : LocalOp) : bool :=
  match op with
  | OpInsertLocal _ _ _ => true
  | _ => false
  end.

Definition inserts (ops : list LocalOp) : Z :=
  Z.of_nat (length (List.filter isInsert ops)).

(** An attempt of the poller during which request 9 is inserted locally. *)
Definition exRacingAttempt : PollAttempt :=
  {| attemptStore := {| cat := exPollCatalog; script := [] |};
     attemptSqlNow := 105;
     concurrent := [OpFindRequest 105 1; OpInsertLocal 105 9 exRequestQ'] |}.

(** The names [pkg/gossip] gives the two keys. *)
Definition exKeyName (k : GossipKey) : string :=
  match k with
  | KeyGossipStatementDiagnosticsRequest => "stmt-diag-req"
  | KeyGossipStatementDiagnosticsRequestCancellation => "stmt-diag-cancel-req"
  end.

(** The world after request 1 of [exWorld1] was completed at instant 105,
    and a read of the poller that finds the catalog so. *)
Definition exWorldDone1 : World :=
  (InsertStatementDiagnostics 20 exEnv16 105 1 "Q" "SELECT 1" exBundle20 None
     exWorld1).2.

Definition exPollAfterDone : PollAttempt :=
  {| attemptStore := store exWorldDone1; attemptSqlNow := 106;
     concurrent := [] |}.

(** The world after request 1 of [exWorld1] was cancelled at instant 105,
    and a read of the poller, after 1970, that finds the catalog so. *)
Definition exWorldCancelled1 : World := (CancelRequest exEnv 105 1 exWorld1).2.

Definition exPollAfterCancel : PollAttempt :=
  {| attemptStore := store exWorldCancelled1;
     attemptSqlNow := unixEpoch + 106; concurrent := [] |}.

(** * Properties *)

(** ** Sample executions *)

Section Executions.

(** After [InsertRequest] the request is pending, the epoch is 1, the
    catalog holds row 1 and one gossip message carries the id. *)
Example insert_request_runs :
  registry exWorld1
  = mkRegistry {[1 := exRequestQ]} ∅ 1 exRand
  ∧ requests (cat (store exWorld1))
    = {[1 := mkRequestRow false "Q" None 100 None None (Some 110)]}
  ∧ gossipSent exWorld1
    = [(KeyGossipStatementDiagnosticsRequest,
        [x01; x00; x00; x00; x00; x00; x00; x00])].
Proof. vm_compute. repeat split; reflexivity. Qed.

(** A second [InsertRequest] for the same fingerprint while the first is
    pending in the catalog is refused. *)
Example duplicate_insert_refused :
  (InsertRequest exEnv 101 "Q" f64_zero 0 0 exWorld1).1
  = Err ErrPendingRequestExists.
Proof. vm_compute. reflexivity. Qed.

(** An expired pending entry is dropped by the execution path without being
    traced. *)
Example expired_entry_dropped :
  ShouldCollectDiagnostics 111 [(1, exRequestQ)] "Q" (registry exWorld1)
  = ((false, 0, emptyRequest), mkRegistry ∅ ∅ 1 exRand).
Proof. vm_compute. reflexivity. Qed.

(** A poll keeps request 1, adds request 2 and drops request 3, which the
    catalog does not list. *)
Example poll_reconciles :
  pollRequests exEnv 105 [exPollAttempt] exPollRegistry
  = (Ok tt,
     mkRegistry {[1 := exRequestQ; 2 := mkRequest "R" f64_zero 5 0]} ∅ 4
       exRand).
Proof. vm_compute. reflexivity. Qed.

(** A bundle of twenty bytes with sixteen-byte chunks: chunk rows 1 and 2 of
    sixteen and four bytes, diagnostics row 3 listing them in order, and the
    completed request row 4. *)
Example adhoc_bundle_chunked :
  let out := InsertStatementDiagnostics 20 exEnv16 200 0 "Q" "SELECT 1"
               exBundle20 None exWorld in
  out.1 = Ok 3
  ∧ bundle_chunks (cat (store out.2))
    = {[1 := chunkRowOf (replicate 16 x2a); 2 := chunkRowOf (replicate 4 x2a)]}
  ∧ diagnostics (cat (store out.2))
    = {[3 := mkDiagnosticsRow "Q" "SELECT 1" 200 [1; 2] None]}
  ∧ requests (cat (store out.2))
    = {[4 := mkRequestRow true "Q" (Some 3) 200 None None None]}.
Proof. vm_compute. repeat split; reflexivity. Qed.

(** A chunk size of zero never consumes the bundle: the loop uses up any
    fuel, and the transaction leaves the catalog as it was. *)
Example zero_chunk_size_loops :
  InsertStatementDiagnostics 50 (mkEnv true true 0) 200 0 "Q" "SELECT 1"
    exBundle20 None exWorld
  = (Halt OutOfFuel, exWorld).
Proof. vm_compute. reflexivity. Qed.

End Executions.

(** ** Disjointness of the two maps *)

Section Disjointness.

Lemma disjointIndex_shrink (r r' : Registry) :
  (∀ id, requestFingerprints r !! id = None → requestFingerprints r' !! id = None) →
  (∀ id, unconditionalOngoing r !! id = None → unconditionalOngoing r' !! id = None) →
  disjointIndex r → disjointIndex r'.
Proof.
  intros Hp Ho Hd id. destruct (Hd id) as [H|H]; [left; auto | right; auto].
Qed.

Lemma disjointIndex_delete_pending (id : Z) (r : Registry) :
  disjointIndex r →
  disjointIndex (withPending (delete id (requestFingerprints r)) r).
Proof.
  apply disjointIndex_shrink; simpl; intros j Hj; [|done].
  rewrite lookup_delete. by case_decide.
Qed.

Lemma disjointIndex_delete_ongoing (id : Z) (r : Registry) :
  disjointIndex r →
  disjointIndex (withOngoing (delete id (unconditionalOngoing r)) r).
Proof.
  apply disjointIndex_shrink; simpl; intros j Hj; [done|].
  rewrite lookup_delete. by case_decide.
Qed.

Lemma disjointIndex_withEpoch (e : Z) (r : Registry) :
  disjointIndex r → disjointIndex (withEpoch e r).
Proof. done. Qed.

Lemma disjointIndex_withRand (g : Rand) (r : Registry) :
  disjointIndex r → disjointIndex (withRand g r).
Proof. done. Qed.

Lemma findRequestLocked_disjoint now id r :
  disjointIndex r → disjointIndex (findRequestLocked now id r).2.
Proof.
  intros Hd. unfold findRequestLocked.
  destruct (requestFingerprints r !! id) as [f|]; simpl; [|done].
  destruct (isExpired f now); [|done]. by apply disjointIndex_delete_pending.
Qed.

(** What [findRequestLocked] answers. *)
Lemma findRequestLocked_false now id r :
  (findRequestLocked now id r).1 = false →
  (findRequestLocked now id r).2 = r
  ∧ requestFingerprints r !! id = None ∧ unconditionalOngoing r !! id = None.
Proof.
  unfold findRequestLocked.
  destruct (requestFingerprints r !! id); simpl; [done|].
  by destruct (unconditionalOngoing r !! id).
Qed.

Lemma addRequestInternalLocked_disjoint now id fp sp lat exp r :
  disjointIndex r →
  disjointIndex (addRequestInternalLocked now id fp sp lat exp r).
Proof.
  intros Hd. unfold addRequestInternalLocked.
  pose proof (findRequestLocked_disjoint now id r Hd) as Hf.
  pose proof (findRequestLocked_false now id r) as Hn.
  destruct (findRequestLocked now id r) as [[] r1]; simpl in *; [done|].
  destruct Hn as (-> & Hp & Ho); [done|].
  intros j. simpl. destruct (decide (j = id)) as [->|Hne].
  - by right.
  - rewrite lookup_insert_ne by done. apply Hd.
Qed.

Lemma cancelRequest_disjoint id r :
  disjointIndex r → disjointIndex (cancelRequest id r).
Proof.
  unfold cancelRequest.
  apply disjointIndex_shrink; simpl; intros j Hj;
    rewrite lookup_delete; by case_decide.
Qed.

Lemma IsExecLatencyConditionMet_disjoint now id req lat r :
  disjointIndex r → disjointIndex (IsExecLatencyConditionMet now id req lat r).2.
Proof.
  intros Hd. unfold IsExecLatencyConditionMet.
  destruct (_ <=? _); [done|]. destruct (isExpired req now); simpl; [|done].
  by apply disjointIndex_delete_pending.
Qed.

Lemma RemoveOngoing_disjoint now id req r :
  disjointIndex r → disjointIndex (RemoveOngoing now id req r).
Proof.
  intros Hd. unfold RemoveOngoing.
  destruct (isConditional req); [destruct (isExpired req now)|]; try done.
  - by apply disjointIndex_delete_pending.
  - by apply disjointIndex_delete_ongoing.
Qed.

Lemma disjointIndex_move id req r :
  disjointIndex r →
  disjointIndex (withPending (delete id (requestFingerprints r))
                   (withOngoing (<[id := req]> (unconditionalOngoing r)) r)).
Proof.
  intros Hd j. simpl. destruct (decide (j = id)) as [->|Hne].
  - left. apply lookup_delete_eq.
  - rewrite lookup_delete_ne, lookup_insert_ne by done. apply Hd.
Qed.

Lemma ShouldCollectDiagnostics_disjoint now order fp r :
  disjointIndex r → disjointIndex (ShouldCollectDiagnostics now order fp r).2.
Proof.
  intros Hd. unfold ShouldCollectDiagnostics.
  case_decide; [done|].
  destruct (scanFingerprints now fp order) as [id|id req|]; simpl; [|..|done].
  - by apply disjointIndex_delete_pending.
  - destruct (id =? 0); [done|].
    assert (disjointIndex
              (if isConditional req then r
               else withPending (delete id (requestFingerprints r))
                      (withOngoing (<[id := req]> (unconditionalOngoing r)) r)))
      as Hd1.
    { destruct (isConditional req); [done|]. by apply disjointIndex_move. }
    destruct (sample req _) as [[] g]; simpl; by apply disjointIndex_withRand.
Qed.

Lemma runLocal_disjoint op r :
  disjointIndex r → disjointIndex (runLocal op r).
Proof.
  intros Hd. destruct op; simpl.
  - by apply findRequestLocked_disjoint.
  - by apply cancelRequest_disjoint.
  - by apply addRequestInternalLocked_disjoint, disjointIndex_withEpoch.
  - by apply ShouldCollectDiagnostics_disjoint.
  - by apply IsExecLatencyConditionMet_disjoint.
  - by apply RemoveOngoing_disjoint.
Qed.

Lemma runLocals_disjoint ops r :
  disjointIndex r → disjointIndex (runLocals ops r).
Proof.
  unfold runLocals. revert r.
  induction ops as [|op ops IH]; intros r Hd; simpl; [done|].
  by apply IH, runLocal_disjoint.
Qed.

Lemma applyRows_disjoint supported now rows ids r :
  disjointIndex r →
  disjointIndex (foldl (applyRow supported now) (ids, r) rows).2.
Proof.
  revert ids r. induction rows as [|row rows IH]; intros ids r Hd; simpl; [done|].
  apply IH. by apply addRequestInternalLocked_disjoint.
Qed.

Lemma applyPoll_disjoint supported now rows r :
  disjointIndex r → disjointIndex (applyPoll supported now rows r).
Proof.
  intros Hd. unfold applyPoll.
  pose proof (applyRows_disjoint supported now rows ∅ r Hd) as H1.
  destruct (foldl _ _ rows) as [ids r1]; simpl in *.
  revert H1. apply disjointIndex_shrink; simpl; intros j Hj; [|done].
  apply map_lookup_filter_None. by left.
Qed.

Lemma pollRequests_disjoint env now attempts r :
  disjointIndex r → disjointIndex (pollRequests env now attempts r).2.
Proof.
  revert r. induction attempts as [|a rest IH]; intros r Hd; simpl; [done|].
  pose proof (runLocals_disjoint (concurrent a) r Hd) as H1.
  destruct (QueryIteratorEx _ _) as [rows|e|h]; simpl; try done.
  destruct (negb _); simpl; [by apply IH|]. by apply applyPoll_disjoint.
Qed.

Lemma runOp_disjoint op r :
  disjointIndex r → disjointIndex (runOp op r).
Proof.
  destruct op; simpl; [apply runLocal_disjoint | apply pollRequests_disjoint].
Qed.

Lemma runOps_disjoint ops r :
  disjointIndex r → disjointIndex (runOps ops r).
Proof.
  unfold runOps. revert r.
  induction ops as [|op ops IH]; intros r Hd; simpl; [done|].
  by apply IH, runOp_disjoint.
Qed.

Lemma NewRegistry_disjoint g : disjointIndex (NewRegistry g).
Proof. intros id. left. apply lookup_empty. Qed.

End Disjointness.

(** ** Admission of unconditional requests *)

Section Admission.

Lemma rangeOrder_elem order r id req :
  rangeOrder order r →
  (id, req) ∈ order ↔ requestFingerprints r !! id = Some req.
Proof.
  unfold rangeOrder. intros ->. apply elem_of_map_to_list.
Qed.

Lemma scanFingerprints_none now fp order :
  (∀ id req, (id, req) ∈ order → fingerprint req ≠ fp) →
  scanFingerprints now fp order = ScanNone.
Proof.
  induction order as [|[id f] rest IH]; intros Hall; simpl; [done|].
  destruct (String.eqb_spec (fingerprint f) fp) as [Heq|Hne].
  - exfalso. apply (Hall id f); [apply list_elem_of_here | done].
  - apply IH. intros id' req' Hin. apply (Hall id').
    by apply list_elem_of_further.
Qed.

Lemma scanFingerprints_unique now fp order id req :
  (id, req) ∈ order →
  (∀ id' req', (id', req') ∈ order → fingerprint req' = fp →
               id' = id ∧ req' = req) →
  fingerprint req = fp →
  isExpired req now = false →
  scanFingerprints now fp order = ScanFound id req.
Proof.
  intros Hin Huniq Hfp Hexp.
  induction order as [|[id' f] rest IH]; simpl; [by apply elem_of_nil in Hin|].
  destruct (String.eqb_spec (fingerprint f) fp) as [Heq|Hne].
  - destruct (Huniq id' f) as [-> ->]; [apply list_elem_of_here | done |].
    by rewrite Hexp.
  - apply IH.
    + apply elem_of_cons in Hin as [Hhd|Htl]; [|done].
      inversion Hhd; subst. by destruct Hne.
    + intros id'' req'' Hin'. apply Huniq. by apply list_elem_of_further.
Qed.

(** A found entry was visited, so it is an entry of [order]. *)
Lemma scanFingerprints_found_elem now fp order id req :
  scanFingerprints now fp order = ScanFound id req →
  (id, req) ∈ order ∧ fingerprint req = fp ∧ isExpired req now = false.
Proof.
  induction order as [|[id' f] rest IH]; simpl; [done|].
  destruct (String.eqb_spec (fingerprint f) fp) as [Heq|Hne].
  - destruct (isExpired f now) eqn:He; [done|].
    intros [= -> ->]. split; [apply list_elem_of_here | done].
  - intros H. destruct (IH H) as (Hin & ? & ?).
    split; [by apply list_elem_of_further | done].
Qed.












(** The registry after a call that found the unconditional request
    [(id, req)]. *)
Lemma ShouldCollectDiagnostics_found_unconditional now order fp r id req :
  requestFingerprints r ≠ ∅ →
  scanFingerprints now fp order = ScanFound id req →
  id ≠ 0 → isConditional req = false →
  ShouldCollectDiagnostics now order fp r =
    (let '(hit, g) := sample req (rand r) in
     (if hit then (true, id, req) else (false, 0, emptyRequest),
      mkRegistry (delete id (requestFingerprints r))
        (<[id := req]> (unconditionalOngoing r)) (epoch r) g)).
Proof.
  intros Hne Hscan Hid Hunc. unfold ShouldCollectDiagnostics.
  case_decide; [done|]. rewrite Hscan.
  destruct (Z.eqb_spec id 0) as [|_]; [done|]. rewrite Hunc. simpl.
  by destruct (sample req (rand r)) as [[] g].
Qed.

End Admission.

(** C2. The two maps of the in-memory index never share an id: the index of
    a fresh registry is disjoint and stays so along every sequence of
    operations ([findRequest], [cancelRequest], the local insert,
    [ShouldCollectDiagnostics], [IsExecLatencyConditionMet],
    [RemoveOngoing], [pollRequests] with whatever runs concurrently), each
    operation preserves disjointness, and so does the add-if-absent
    [addRequestInternalLocked] on its own. *)
Theorem C2_index_maps_disjoint :
  (∀ g ops, disjointIndex (runOps ops (NewRegistry g)))
  ∧ (∀ op r, disjointIndex r → disjointIndex (runOp op r))
  ∧ (∀ now id fp sp lat exp r,
       disjointIndex r →
       disjointIndex (addRequestInternalLocked now id fp sp lat exp r)).
Proof.
  split; [|split].
  - intros g ops. apply runOps_disjoint, NewRegistry_disjoint.
  - apply runOp_disjoint.
  - intros. by apply addRequestInternalLocked_disjoint.
Qed.

Lemma C2_index_maps_disjoint_witness :
  disjointIndex
    (runOp (OpLocal (OpShouldCollect 105 [(7, exRequestS)] "S")) exRegistryS).
Proof.
  apply (proj1 (proj2 C2_index_maps_disjoint)).
  intros id. right. reflexivity.
Defined.




(** C5. When the scan of [ShouldCollectDiagnostics] finds the pending
    unconditional request [(id, req)] (non-zero id), the entry leaves the
    pending map and enters the ongoing map whatever the sampling decides;
    the answer is [(true, id, req)] when the sampling probability [p] is
    zero, or when the draw [u] satisfies [u < p], and [(false, 0, Request{})]
    otherwise. *)
Theorem C5_admission_precedes_sampling now order fp r id req :
  rangeOrder order r →
  scanFingerprints now fp order = ScanFound id req →
  id ≠ 0 →
  isConditional req = false →
  let res := (ShouldCollectDiagnostics now order fp r).1 in
  let r' := (ShouldCollectDiagnostics now order fp r).2 in
  let p := samplingProbability req in
  let u := outputs (rand r) (drawn (rand r)) in
  requestFingerprints r !! id = Some req
  ∧ requestFingerprints r' = delete id (requestFingerprints r)
  ∧ unconditionalOngoing r' = <[id := req]> (unconditionalOngoing r)
  ∧ unconditionalOngoing r' !! id = Some req
  ∧ epoch r' = epoch r
  ∧ res = (if PrimFloat.eqb p f64_zero then (true, id, req)
           else if PrimFloat.ltb u p then (true, id, req)
           else (false, 0, emptyRequest)).
Proof.
  intros Hord Hscan Hid Hunc res r' p u.
  destruct (scanFingerprints_found_elem _ _ _ _ _ Hscan) as (Hin & Hfp & Hexp).
  apply (rangeOrder_elem order r) in Hin; [|done].
  assert (requestFingerprints r ≠ ∅) as Hne.
  { intros He. rewrite He in Hin. by rewrite lookup_empty in Hin. }
  unfold res, r'.
  rewrite (ShouldCollectDiagnostics_found_unconditional now order fp r id req)
    by done.
  unfold sample, Float64, p, u.
  destruct (PrimFloat.eqb (samplingProbability req) f64_zero); simpl.
  - repeat split; try done. apply lookup_insert_eq.
  - destruct (PrimFloat.ltb _ _); simpl; repeat split; try done;
      apply lookup_insert_eq.
Qed.

Lemma C5_admission_precedes_sampling_witness :
  let res := (ShouldCollectDiagnostics 5 [(7, exRequestS)] "S" exRegistryS).1 in
  let r' := (ShouldCollectDiagnostics 5 [(7, exRequestS)] "S" exRegistryS).2 in
  let p := samplingProbability exRequestS in
  let u := outputs (rand exRegistryS) (drawn (rand exRegistryS)) in
  requestFingerprints exRegistryS !! 7 = Some exRequestS
  ∧ requestFingerprints r' = delete 7 (requestFingerprints exRegistryS)
  ∧ unconditionalOngoing r' = <[7 := exRequestS]> (unconditionalOngoing exRegistryS)
  ∧ unconditionalOngoing r' !! 7 = Some exRequestS
  ∧ epoch r' = epoch exRegistryS
  ∧ res = (if PrimFloat.eqb p f64_zero then (true, 7, exRequestS)
           else if PrimFloat.ltb u p then (true, 7, exRequestS)
           else (false, 0, emptyRequest)).
Proof.
  apply (C5_admission_precedes_sampling 5 [(7, exRequestS)] "S" exRegistryS 7
           exRequestS).
  - unfold rangeOrder. simpl. rewrite map_to_list_singleton. reflexivity.
  - reflexivity.
  - lia.
  - reflexivity.
Defined.

(** ** The epoch *)

Section Epoch.


Lemma findRequestLocked_epoch now id r :
  epoch (findRequestLocked now id r).2 = epoch r.
Proof.
  unfold findRequestLocked.
  destruct (requestFingerprints r !! id) as [f|]; simpl; [|done].
  by destruct (isExpired f now).
Qed.

Lemma addRequestInternalLocked_epoch now id fp sp lat exp r :
  epoch (addRequestInternalLocked now id fp sp lat exp r) = epoch r.
Proof.
  unfold addRequestInternalLocked.
  pose proof (findRequestLocked_epoch now id r) as He.
  by destruct (findRequestLocked now id r) as [[] r1].
Qed.

Lemma ShouldCollectDiagnostics_epoch now order fp r :
  epoch (ShouldCollectDiagnostics now order fp r).2 = epoch r.
Proof.
  unfold ShouldCollectDiagnostics. case_decide; [done|].
  destruct (scanFingerprints now fp order) as [id|id req|]; simpl; try done.
  destruct (id =? 0); [done|].
  destruct (sample req _) as [[] g]; simpl; by destruct (isConditional req).
Qed.

(** A local operation leaves the epoch alone, except the local insert, which
    increments it. *)
Lemma runLocal_epoch op r :
  epoch (runLocal op r) =
    match op with
    | OpInsertLocal _ _ _ => wrap64 (epoch r + 1)
    | _ => epoch r
    end.
Proof.
  destruct op; simpl.
  - apply findRequestLocked_epoch.
  - done.
  - unfold insertLocal. by rewrite addRequestInternalLocked_epoch.
  - apply ShouldCollectDiagnostics_epoch.
  - unfold IsExecLatencyConditionMet.
    destruct (_ <=? _); [done|]. by destruct (isExpired req now).
  - unfold RemoveOngoing.
    destruct (isConditional req); [destruct (isExpired req now)|]; done.
Qed.

Lemma addRequestInternalLocked_frame now id fp sp lat exp r :
  let r1 := addRequestInternalLocked now id fp sp lat exp r in
  unconditionalOngoing r1 = unconditionalOngoing r
  ∧ epoch r1 = epoch r ∧ rand r1 = rand r.
Proof.
  unfold addRequestInternalLocked, findRequestLocked.
  destruct (requestFingerprints r !! id) as [f|]; simpl.
  - by destruct (isExpired f now).
  - by destruct (unconditionalOngoing r !! id).
Qed.

Lemma applyRows_frame supported now rows ids r :
  let r1 := (foldl (applyRow supported now) (ids, r) rows).2 in
  unconditionalOngoing r1 = unconditionalOngoing r
  ∧ epoch r1 = epoch r ∧ rand r1 = rand r.
Proof.
  revert ids r. induction rows as [|row rows IH]; intros ids r; [done|].
  cbn [foldl]. unfold applyRow at 2. cbn [fst snd].
  match goal with
  | |- context [foldl _ (?i, addRequestInternalLocked ?n ?d ?a ?b ?c ?e r) rows] =>
      destruct (IH i (addRequestInternalLocked n d a b c e r)) as (Ho & He & Hg);
      destruct (addRequestInternalLocked_frame n d a b c e r) as (Ho' & He' & Hg')
  end.
  cbn zeta in *.
  split; [exact (eq_trans Ho Ho') | split];
    [exact (eq_trans He He') | exact (eq_trans Hg Hg')].
Qed.

Lemma applyPoll_frame supported now rows r :
  unconditionalOngoing (applyPoll supported now rows r) = unconditionalOngoing r
  ∧ epoch (applyPoll supported now rows r) = epoch r
  ∧ rand (applyPoll supported now rows r) = rand r.
Proof.
  unfold applyPoll.
  pose proof (applyRows_frame supported now rows ∅ r) as H.
  by destruct (foldl _ _ rows) as [ids r1].
Qed.

Lemma runLocals_app ops1 ops2 r :
  runLocals (ops1 ++ ops2) r = runLocals ops2 (runLocals ops1 r).
Proof. unfold runLocals. apply foldl_app. Qed.


End Epoch.




(** ** Reconciliation by the poller *)

Section Poll.

Lemma addRequestInternalLocked_lookup now id fp sp lat exp r j :
  requestFingerprints (addRequestInternalLocked now id fp sp lat exp r) !! j =
    if decide (j = id) then
      match requestFingerprints r !! id with
      | Some f => if isExpired f now then None else Some f
      | None =>
          match unconditionalOngoing r !! id with
          | Some _ => None
          | None => Some (mkRequest fp sp lat exp)
          end
      end
    else requestFingerprints r !! j.
Proof.
  unfold addRequestInternalLocked, findRequestLocked.
  destruct (requestFingerprints r !! id) as [f|] eqn:Hp; simpl.
  - destruct (isExpired f now); simpl.
    + rewrite lookup_delete. by repeat case_decide; subst.
    + case_decide; by subst.
  - destruct (unconditionalOngoing r !! id); simpl.
    + case_decide; by subst.
    + rewrite lookup_insert. by repeat case_decide; subst.
Qed.

Lemma applyRow_unfold supported now ids r row :
  applyRow supported now (ids, r) row =
    ({[pr_id row]} ∪ ids,
     addRequestInternalLocked now (pr_id row) (fingerprint (rowRequest supported row))
       (samplingProbability (rowRequest supported row))
       (minExecutionLatency (rowRequest supported row))
       (expiresAt (rowRequest supported row)) r).
Proof. reflexivity. Qed.

Lemma applyRow_lookup supported now ids r row j :
  requestFingerprints (applyRow supported now (ids, r) row).2 !! j =
    if decide (j = pr_id row) then rowOutcome supported now r row
    else requestFingerprints r !! j.
Proof.
  rewrite applyRow_unfold. cbn [snd].
  rewrite addRequestInternalLocked_lookup. unfold rowOutcome.
  by destruct (rowRequest supported row).
Qed.

Lemma applyRows_ids supported now rows ids r :
  (foldl (applyRow supported now) (ids, r) rows).1
  = list_to_set (pr_id <$> rows) ∪ ids.
Proof.
  revert ids r. induction rows as [|row rows IH]; intros ids r.
  - simpl. by rewrite (left_id_L ∅ (∪)).
  - cbn [foldl]. rewrite applyRow_unfold, IH. simpl.
    by rewrite (assoc_L (∪)), (comm_L (∪) (list_to_set _)).
Qed.

Lemma applyRows_lookup_notin supported now rows ids r j :
  j ∉ pr_id <$> rows →
  requestFingerprints (foldl (applyRow supported now) (ids, r) rows).2 !! j
  = requestFingerprints r !! j.
Proof.
  revert ids r. induction rows as [|row rows IH]; intros ids r Hj; [done|].
  cbn [foldl]. rewrite fmap_cons in Hj. apply not_elem_of_cons in Hj as [Hne Hj].
  pose proof (applyRow_lookup supported now ids r row j) as Hstep.
  destruct (applyRow supported now (ids, r) row) as [ids' r'].
  rewrite IH by done. simpl in Hstep. rewrite Hstep. by case_decide.
Qed.

Lemma rowOutcome_ext supported now r r' row :
  requestFingerprints r' !! pr_id row = requestFingerprints r !! pr_id row →
  unconditionalOngoing r' = unconditionalOngoing r →
  rowOutcome supported now r' row = rowOutcome supported now r row.
Proof. unfold rowOutcome. by intros -> ->. Qed.

Lemma applyRows_lookup_in supported now rows ids r row :
  NoDup (pr_id <$> rows) → row ∈ rows →
  requestFingerprints (foldl (applyRow supported now) (ids, r) rows).2
    !! pr_id row
  = rowOutcome supported now r row.
Proof.
  revert ids r. induction rows as [|row0 rows IH]; intros ids r Hnd Hin.
  { by apply elem_of_nil in Hin. }
  rewrite fmap_cons in Hnd. apply NoDup_cons in Hnd as [Hfresh Hnd].
  cbn [foldl].
  pose proof (applyRow_lookup supported now ids r row0 (pr_id row)) as Hstep.
  pose proof (addRequestInternalLocked_frame now (pr_id row0)
                (fingerprint (rowRequest supported row0))
                (samplingProbability (rowRequest supported row0))
                (minExecutionLatency (rowRequest supported row0))
                (expiresAt (rowRequest supported row0)) r) as (Ho & _ & _).
  rewrite applyRow_unfold in *. cbn [snd] in *.
  apply elem_of_cons in Hin as [->|Hin].
  - rewrite applyRows_lookup_notin by done. rewrite Hstep. by case_decide.
  - rewrite IH by done.
    assert (pr_id row ≠ pr_id row0) as Hne.
    { intros Heq. apply Hfresh. rewrite <- Heq. by apply list_elem_of_fmap_2. }
    apply rowOutcome_ext; [|done]. rewrite Hstep. by case_decide.
Qed.

Lemma applyPoll_pollFrame supported now rows r :
  NoDup (pr_id <$> rows) →
  pollFrame supported now rows r (applyPoll supported now rows r).
Proof.
  intros Hnd. unfold pollFrame.
  destruct (applyPoll_frame supported now rows r) as (Ho & He & Hg).
  split; [done|]. split; [done|]. split; [done|].
  unfold applyPoll.
  pose proof (applyRows_ids supported now rows ∅ r) as Hids.
  pose proof (λ j, applyRows_lookup_notin supported now rows ∅ r j) as Hnotin.
  pose proof (λ row, applyRows_lookup_in supported now rows ∅ r row Hnd) as Hin.
  destruct (foldl _ _ rows) as [ids r1]. simpl in *.
  assert (∀ j, j ∈ ids ↔ j ∈ pr_id <$> rows) as Hmem.
  { intros j. rewrite Hids, (right_id_L ∅ (∪)). apply elem_of_list_to_set. }
  split; [|split].
  - intros id f Hp. case_decide as Hd.
    + apply list_elem_of_fmap in Hd as (row & -> & Hrow).
      pose proof (Hin row Hrow) as Hl. unfold rowOutcome in Hl. rewrite Hp in Hl.
      destruct (isExpired f now) eqn:Hexp.
      * apply map_lookup_filter_None. left. done.
      * apply map_lookup_filter_Some. split; [done|]. simpl.
        intros [Hni|Hx]; [|congruence].
        apply Hni, Hmem. by apply list_elem_of_fmap_2.
    + apply map_lookup_filter_None. right. intros q _. simpl.
      intros Hn. apply Hn. left. by rewrite Hmem.
  - intros row Hrow Hp Hon.
    pose proof (Hin row Hrow) as Hl. unfold rowOutcome in Hl.
    rewrite Hp, Hon in Hl.
    destruct (isExpired (rowRequest supported row) now) eqn:Hexp.
    + apply map_lookup_filter_None. right. intros q Hq. simpl.
      intros Hn. apply Hn. right. congruence.
    + apply map_lookup_filter_Some. split; [done|]. simpl.
      intros [Hni|Hx]; [|congruence].
      apply Hni, Hmem. by apply list_elem_of_fmap_2.
  - intros id Hp Hcase. apply map_lookup_filter_None. left.
    destruct (decide (id ∈ pr_id <$> rows)) as [Hd|Hd].
    + destruct Hcase as [[q Hq]|Hn]; [|done].
      apply list_elem_of_fmap in Hd as (row & -> & Hrow).
      rewrite (Hin row Hrow). unfold rowOutcome. by rewrite Hp, Hq.
    + by rewrite Hnotin.
Qed.

End Poll.

Section PollLoop.

Lemma attemptRows_NoDup env a : NoDup (pr_id <$> attemptRows env a).
Proof.
  unfold attemptRows, QueryIteratorEx, pollStmt.
  destruct (head (script (attemptStore a))) as [[]|]; try apply NoDup_nil_2.
  all: rewrite <- list_fmap_compose; apply NoDup_fst_map_to_list.
Qed.

Lemma interleaved_cons k a rest :
  interleaved (S k) (a :: rest) = concurrent a ++ interleaved k rest.
Proof. reflexivity. Qed.

(** A poll that succeeds stopped at some attempt [k]: the epoch did not move
    while that attempt's read ran, and the rows of that read were applied to
    the registry as the poller found it when it took the mutex. *)
Lemma pollRequests_success env now attempts r r' :
  pollRequests env now attempts r = (Ok tt, r') →
  ∃ k a,
    attempts !! k = Some a
    ∧ QueryIteratorEx
        (pollStmt (sampledStmtDiagReqsActive env) (attemptSqlNow a))
        (attemptStore a) = Ok (attemptRows env a)
    ∧ epoch (runLocals (interleaved (S k) attempts) r)
      = epoch (runLocals (interleaved k attempts) r)
    ∧ r' = applyPoll (sampledStmtDiagReqsActive env) now (attemptRows env a)
             (runLocals (interleaved (S k) attempts) r).
Proof.
  revert r r'. induction attempts as [|a rest IH]; intros r r'; simpl; [done|].
  destruct (QueryIteratorEx _ _) as [rows|e|h] eqn:Hq; [|done..].
  destruct (Z.eqb_spec (epoch (runLocals (concurrent a) r)) (epoch r))
    as [Heq|Hne]; simpl.
  - intros [= <-]. exists 0%nat, a.
    unfold attemptRows. rewrite Hq.
    rewrite interleaved_cons.
    change (interleaved 0 rest) with (@nil LocalOp).
    change (interleaved 0 (a :: rest)) with (@nil LocalOp).
    rewrite app_nil_r. done.
  - intros Hrest. destruct (IH _ _ Hrest) as (k & a' & Hk & Hrows & Hep & Hr').
    exists (S k), a'. rewrite !interleaved_cons, !runLocals_app. done.
Qed.

End PollLoop.

(** C7. A successful [pollRequests] leaves the ongoing map (and the epoch)
    as the poller found them when it took the mutex.  On the pending map, a
    row's id that is in neither map is added; a pending entry is deleted
    exactly when its id is not among the rows read or it has expired at the
    instant of the poll, and is otherwise unchanged.  When the epoch has
    changed while the read ran, the rows are discarded and the read is run
    again on the registry as it then is. *)
Theorem C7_poll_reconciles_pending :
  (∀ env now a rest r rows,
     QueryIteratorEx
       (pollStmt (sampledStmtDiagReqsActive env) (attemptSqlNow a))
       (attemptStore a) = Ok rows →
     epoch (runLocals (concurrent a) r) ≠ epoch r →
     pollRequests env now (a :: rest) r
     = pollRequests env now rest (runLocals (concurrent a) r))
  ∧ (∀ env now attempts r r',
       pollRequests env now attempts r = (Ok tt, r') →
       ∃ k a,
         attempts !! k = Some a
         ∧ epoch (runLocals (interleaved (S k) attempts) r)
           = epoch (runLocals (interleaved k attempts) r)
         ∧ pollFrame (sampledStmtDiagReqsActive env) now (attemptRows env a)
             (runLocals (interleaved (S k) attempts) r) r').
Proof.
  split.
  - intros env now a rest r rows Hq Hne. simpl. rewrite Hq.
    by destruct (Z.eqb_spec (epoch (runLocals (concurrent a) r)) (epoch r)).
  - intros env now attempts r r' Hrun.
    destruct (pollRequests_success _ _ _ _ _ Hrun) as (k & a & Hk & _ & Hep & ->).
    exists k, a. split; [done|]. split; [done|].
    apply applyPoll_pollFrame, attemptRows_NoDup.
Qed.

Lemma C7_poll_reconciles_pending_witness :
  ∃ k a,
    [exPollAttempt] !! k = Some a
    ∧ epoch (runLocals (interleaved (S k) [exPollAttempt]) exPollRegistry)
      = epoch (runLocals (interleaved k [exPollAttempt]) exPollRegistry)
    ∧ pollFrame (sampledStmtDiagReqsActive exEnv) 105 (attemptRows exEnv a)
        (runLocals (interleaved (S k) [exPollAttempt]) exPollRegistry)
        (pollRequests exEnv 105 [exPollAttempt] exPollRegistry).2.
Proof.
  apply (proj2 C7_poll_reconciles_pending exEnv 105 [exPollAttempt]
           exPollRegistry).
  vm_compute. reflexivity.
Defined.

(** ** Rejected requests and cancellations *)

Section Rejections.


Lemma InsertRequest_internal env now fp sp lat exp w e :
  insertRequestInternal env now fp sp lat exp w = (Err e, w) →
  InsertRequest env now fp sp lat exp w = (Err e, w).
Proof. unfold InsertRequest. by intros ->. Qed.

End Rejections.



(** C9. While the cluster version for sampled diagnostics requests is not
    active, [InsertRequest] with a sampling probability different from zero
    returns an error, whatever the other arguments, and leaves the catalog,
    the executor, the in-memory index and the gossip sent as they were. *)
Theorem C9_sampling_gated_by_cluster_version env now fp sp lat expiresAfter w :
  sampledStmtDiagReqsActive env = false →
  f64_ne_zero sp = true →
  InsertRequest env now fp sp lat expiresAfter w =
    (Err (if gossipAvailable env then ErrSamplingNotSupported
          else ErrGossipUnavailable), w).
Proof.
  intros Hv Hp. apply InsertRequest_internal.
  unfold insertRequestInternal. rewrite Hv, Hp.
  by destruct (gossipAvailable env).
Qed.

Lemma C9_sampling_gated_by_cluster_version_witness :
  InsertRequest exEnvOld 100 "Q" f64_half 250 10 exWorld =
    (Err (if gossipAvailable exEnvOld then ErrSamplingNotSupported
          else ErrGossipUnavailable), exWorld).
Proof.
  apply C9_sampling_gated_by_cluster_version; reflexivity.
Defined.

(** C10. When [CancelRequest] returns an error, the in-memory index (both
    maps, the epoch, the generator), the gossip sent and the catalog are as
    before the call, and the error is one of three: gossip is unavailable,
    the executor failed the [UPDATE], or the [UPDATE] returned no row.  The
    registry or the gossip log change only when the [UPDATE] has returned a
    row, which it does only for a catalog row with that id that is neither
    completed nor expired. *)
Theorem C10_failed_cancel_changes_nothing env now requestID w :
  (∀ e w',
     CancelRequest env now requestID w = (Err e, w') →
     registry w' = registry w
     ∧ gossipSent w' = gossipSent w
     ∧ cat (store w') = cat (store w)
     ∧ (e = ErrGossipUnavailable ∨ e = ErrNoPendingRequest
        ∨ ∃ msg, e = ErrExecutor msg))
  ∧ (registry (CancelRequest env now requestID w).2 ≠ registry w
     ∨ gossipSent (CancelRequest env now requestID w).2 ≠ gossipSent w →
     (CancelRequest env now requestID w).1 = Ok tt
     ∧ (∃ s', QueryRowEx (cancelRequestStmt now requestID) (store w)
              = (Ok (Some requestID), s'))
     ∧ ∃ row, requests (cat (store w)) !! requestID = Some row
              ∧ req_completed row = false ∧ notExpiredSQL now row = true).
Proof.
  unfold CancelRequest, QueryRowEx, cancelRequestStmt.
  destruct (negb (gossipAvailable env)).
  { split; [intros e w' [= <- <-]; eauto 10 | simpl; by intros [|]]. }
  destruct (head (script (store w))) as [[]|]; simpl.
  2,3: split; [intros e w' [= <- <-]; eauto 10 | simpl; by intros [|]].
  all: destruct (requests (cat (store w)) !! requestID) as [row|] eqn:Hrow;
    simpl; [|split; [intros e w' [= <- <-]; eauto 10 | simpl; by intros [|]]].
  all: destruct (req_completed row) eqn:Hc; simpl;
    [split; [intros e w' [= <- <-]; eauto 10 | simpl; by intros [|]]|].
  all: destruct (notExpiredSQL now row) eqn:Hx; simpl;
    [|split; [intros e w' [= <- <-]; eauto 10 | simpl; by intros [|]]].
  all: split; [done|]; intros _; eauto 10.
Qed.

Lemma C10_failed_cancel_changes_nothing_witness :
  registry (CancelRequest exEnv 105 5 exWorld1).2 = registry exWorld1
  ∧ gossipSent (CancelRequest exEnv 105 5 exWorld1).2 = gossipSent exWorld1
  ∧ cat (store (CancelRequest exEnv 105 5 exWorld1).2) = cat (store exWorld1)
  ∧ (ErrNoPendingRequest = ErrGossipUnavailable
     ∨ ErrNoPendingRequest = ErrNoPendingRequest
     ∨ ∃ msg, ErrNoPendingRequest = ErrExecutor msg).
Proof.
  apply (proj1 (C10_failed_cancel_changes_nothing exEnv 105 5 exWorld1)
           ErrNoPendingRequest).
  vm_compute. reflexivity.
Defined.

(** ** The completion writer *)

Section Completion.

Lemma bind_Ok {A B} (m : Exec A) (k : A → Exec B) s b s' :
  bind m k s = (Ok b, s') → ∃ a s1, m s = (Ok a, s1) ∧ k a s1 = (Ok b, s').
Proof. unfold bind. destruct (m s) as [[a|e|h] s1]; [eauto | done | done]. Qed.

Lemma Txn_Ok {A} (body : Exec A) s a s' :
  Txn body s = (Ok a, s') → body s = (Ok a, s').
Proof. unfold Txn. by destruct (body s) as [[?|?|?] ?]. Qed.

(** A transaction that does not commit leaves the catalog as it was. *)
Lemma Txn_rollback {A} (body : Exec A) s :
  (∀ a, (Txn body s).1 ≠ Ok a) → cat (Txn body s).2 = cat s.
Proof.
  unfold Txn. destruct (body s) as [[a|e|h] s1]; simpl; [|done..].
  intros H. by destruct (H a).
Qed.



(** [ceilDiv n s] is the least [k] with [n ≤ k * s]. *)
Lemma ceilDiv_spec n s :
  0 < s → 0 ≤ n → (ceilDiv n s - 1) * s < n ≤ ceilDiv n s * s.
Proof.
  intros Hs Hn. unfold ceilDiv.
  pose proof (Z.div_mod (n + s - 1) s) as Hdm.
  pose proof (Z.mod_pos_bound (n + s - 1) s Hs).
  nia.
Qed.

Lemma insertChunks_nil fuel s acc : insertChunks fuel s [] acc = ret acc.
Proof. by destruct fuel. Qed.

Lemma insertChunks_cons fuel s b0 bs acc :
  insertChunks (S fuel) s (b0 :: bs) acc =
    let bundle := b0 :: bs in
    if (Z.of_nat (length bundle) >? s) && (s <? 0) then halts Panicked
    else
      let chunk :=
        if Z.of_nat (length bundle) >? s then take (Z.to_nat s) bundle
        else bundle in
      bind (QueryRowEx (insertChunkStmt chunk))
        (λ row,
           match row with
           | None => fail ErrBundleChunkNoRow
           | Some chunkID =>
               insertChunks fuel s (drop (length chunk) bundle) (acc ++ [chunkID])
           end).
Proof. reflexivity. Qed.


Lemma insertChunk_step chunk st id st1 :
  QueryRowEx (insertChunkStmt chunk) st = (Ok (Some id), st1) →
  id = next_rowid (cat st)
  ∧ bundle_chunks (cat st) !! id = None
  ∧ cat st1 = mkCatalog (requests (cat st)) (diagnostics (cat st))
                (<[id := chunkRowOf chunk]> (bundle_chunks (cat st))) (id + 1).
Proof.
  unfold QueryRowEx, insertChunkStmt.
  destruct (head (script st)) as [[]|]; simpl; try done.
  all: destruct (bundle_chunks (cat st) !! next_rowid (cat st)) eqn:Hfresh;
    simpl; try done.
  all: by intros [= <- <-].
Qed.



End Completion.

Section Chunking.



End Chunking.

Section CompletionTxn.

Lemma insertChunks_frame s fuel bundle acc st ids st' :
  insertChunks fuel s bundle acc st = (Ok ids, st') →
  requests (cat st') = requests (cat st)
  ∧ diagnostics (cat st') = diagnostics (cat st).
Proof.
  revert bundle acc st. induction fuel as [|fuel IH]; intros bundle acc st Hrun.
  all: destruct bundle as [|b0 bs];
    [by rewrite insertChunks_nil in Hrun; injection Hrun as <- <-|].
  { done. }
  rewrite insertChunks_cons in Hrun. cbv zeta in Hrun.
  destruct (_ && _); [done|].
  apply bind_Ok in Hrun as (row & st1 & Hrow & Hrest).
  destruct row as [id|]; [|done].
  apply insertChunk_step in Hrow as (_ & _ & Hcat1).
  apply IH in Hrest as [-> ->]. by rewrite Hcat1.
Qed.

Lemma checkCompleted_run requestID st :
  QueryRowEx (checkCompletedStmt requestID) st =
    (match head (script st) with
     | Some (IeErr msg) => Err (ErrExecutor msg)
     | Some IeNoRow => Ok None
     | Some IeOk | None => Ok (Some (if isOpen (cat st) requestID then 1 else 0))
     end, mkExecState (cat st) (tail (script st))).
Proof.
  unfold QueryRowEx, checkCompletedStmt, isOpen.
  destruct (head (script st)) as [[]|]; try done.
  all: destruct (requests (cat st) !! requestID) as [row|]; [|done].
  all: by destruct (req_completed row).
Qed.

Lemma insertDiagnostics_step row st d st' :
  QueryRowEx (insertDiagnosticsStmt row) st = (Ok (Some d), st') →
  diagnostics (cat st) !! d = None
  ∧ cat st' = mkCatalog (requests (cat st)) (<[d := row]> (diagnostics (cat st)))
                (bundle_chunks (cat st)) (d + 1).
Proof.
  unfold QueryRowEx, insertDiagnosticsStmt.
  destruct (head (script st)) as [[]|]; simpl; try done.
  all: destruct (diagnostics (cat st) !! next_rowid (cat st)) eqn:Hfresh;
    simpl; try done.
  all: by intros [= <- <-].
Qed.

Lemma recordCompletion_step requestID fp d t st st' :
  recordCompletion requestID fp d t st = (Ok tt, st') →
  diagnostics (cat st') = diagnostics (cat st)
  ∧ bundle_chunks (cat st') = bundle_chunks (cat st)
  ∧ (requestID ≠ 0 → isOpen (cat st') requestID = false).
Proof.
  unfold recordCompletion, ExecEx, markCompletedStmt, addCompletedStmt,
    insertRequestStmt, isOpen.
  destruct (Z.eqb_spec requestID 0) as [->|Hne]; simpl.
  - destruct (head (script st)) as [[]|]; simpl; try done.
    all: destruct (requests (cat st) !! next_rowid (cat st)); simpl; try done.
    all: by intros [= <-].
  - destruct (head (script st)) as [[]|]; simpl; try done.
    all: intros [= <-]; simpl.
    all: destruct (requests (cat st) !! requestID) as [row|] eqn:Hrow; simpl.
    all: repeat split; try done; intros _.
    all: try by rewrite lookup_insert_eq.
    all: by rewrite Hrow.
Qed.

(** The two ways the transaction of [InsertStatementDiagnostics] commits:
    the early return, or the chunk inserts, the diagnostics insert and the
    update of the requests table, in this order. *)
Lemma insertStatementDiagnosticsTxn_Ok fuel env now requestID fp stmt bundle
    cerr st diagID st' :
  insertStatementDiagnosticsTxn fuel env now requestID fp stmt bundle cerr st
  = (Ok diagID, st') →
  (requestID ≠ 0 ∧ isOpen (cat st) requestID = false ∧ diagID = 0
   ∧ cat st' = cat st)
  ∨ ((requestID = 0 ∨ isOpen (cat st) requestID = true)
     ∧ ∃ st0 ids st1 st2,
         cat st0 = cat st
         ∧ insertChunks fuel (bundleChunkSize env) bundle [] st0 = (Ok ids, st1)
         ∧ QueryRowEx
             (insertDiagnosticsStmt (mkDiagnosticsRow fp stmt now ids cerr)) st1
           = (Ok (Some diagID), st2)
         ∧ recordCompletion requestID fp diagID now st2 = (Ok tt, st')).
Proof.
  unfold insertStatementDiagnosticsTxn. intros Hrun.
  apply bind_Ok in Hrun as (proceed & st0 & Hcheck & Hrest).
  assert (cat st0 = cat st
          ∧ (proceed = false → requestID ≠ 0 ∧ isOpen (cat st) requestID = false)
          ∧ (proceed = true → requestID = 0 ∨ isOpen (cat st) requestID = true))
    as (Hcat0 & Hstop & Hgo).
  { destruct (Z.eqb_spec requestID 0) as [->|Hne]; simpl in Hcheck.
    - injection Hcheck as <- <-. split; [done|]. split; [done | by left].
    - apply bind_Ok in Hcheck as (row & sx & Hq & Hmatch).
      rewrite checkCompleted_run in Hq.
      destruct row as [cnt|]; [|done]. injection Hmatch as <- <-.
      destruct (head (script st)) as [[]|]; try done.
      all: injection Hq as <- <-; simpl.
      all: destruct (isOpen (cat st) requestID); simpl; split; try done;
        split; try done; by right. }
  destruct proceed; simpl in Hrest.
  - right. split; [by apply Hgo|].
    apply bind_Ok in Hrest as (ids & st1 & Hchunks & Hrest).
    apply bind_Ok in Hrest as (row & st2 & Hdiag & Hrest).
    destruct row as [d|]; [|done].
    apply bind_Ok in Hrest as ([] & st3 & Hrec & Hret).
    injection Hret as <- <-.
    by exists st0, ids, st1, st2.
  - left. injection Hrest as <- <-. destruct Hstop as [? ?]; done.
Qed.

Lemma insertStatementDiagnosticsTxn_closed fuel env now requestID fp stmt
    bundle cerr st :
  requestID ≠ 0 → isOpen (cat st) requestID = false →
  insertStatementDiagnosticsTxn fuel env now requestID fp stmt bundle cerr st =
    (match head (script st) with
     | Some (IeErr msg) => Err (ErrExecutor msg)
     | Some IeNoRow => Err ErrCheckCompletedNoRow
     | Some IeOk | None => Ok 0
     end, mkExecState (cat st) (tail (script st))).
Proof.
  intros Hne Hclosed. unfold insertStatementDiagnosticsTxn.
  destruct (Z.eqb_spec requestID 0) as [|_]; [done|]. simpl.
  unfold bind at 1 2. rewrite checkCompleted_run, Hclosed.
  by destruct (head (script st)) as [[]|].
Qed.

(** Without an open request the transaction writes nothing, whatever the
    executor does. *)
Lemma InsertStatementDiagnostics_closed fuel env now requestID fp stmt bundle
    cerr w :
  requestID ≠ 0 → isOpen (cat (store w)) requestID = false →
  InsertStatementDiagnostics fuel env now requestID fp stmt bundle cerr w =
    (match head (script (store w)) with
     | Some (IeErr msg) => Err (ErrExecutor msg)
     | Some IeNoRow => Err ErrCheckCompletedNoRow
     | Some IeOk | None => Ok 0
     end,
     mkWorld (registry w)
       (mkExecState (cat (store w)) (tail (script (store w))))
       (gossipSent w)).
Proof.
  intros Hne Hclosed. unfold InsertStatementDiagnostics, Txn.
  rewrite insertStatementDiagnosticsTxn_closed by done.
  by destruct (head (script (store w))) as [[]|].
Qed.

(** One call for a request id: either the catalog is as before, or the
    request was open, is now completed, and the diagnostics table has one
    more row. *)
Lemma InsertStatementDiagnostics_step fuel env now requestID fp stmt bundle
    cerr w :
  requestID ≠ 0 →
  let w' := (InsertStatementDiagnostics fuel env now requestID fp stmt bundle
               cerr w).2 in
  cat (store w') = cat (store w)
  ∨ (isOpen (cat (store w)) requestID = true
     ∧ isOpen (cat (store w')) requestID = false
     ∧ size (diagnostics (cat (store w')))
       = S (size (diagnostics (cat (store w))))).
Proof.
  intros Hne. unfold InsertStatementDiagnostics.
  destruct (Txn _ _) as [res s'] eqn:Hrun. simpl.
  destruct res as [d|e|h].
  - apply Txn_Ok, insertStatementDiagnosticsTxn_Ok in Hrun
      as [(_ & _ & _ & Hcat)|([|Hopen] & st0 & ids & st1 & st2 & Hc0 & Hch & Hd & Hr)];
      [by left | done |].
    right. split; [done|].
    apply insertChunks_frame in Hch as [Hreq Hdiag].
    apply insertDiagnostics_step in Hd as [Hfresh Hcat2].
    apply recordCompletion_step in Hr as (Hd' & _ & Hclosed).
    split; [by apply Hclosed|].
    rewrite Hd', Hcat2. simpl. rewrite map_size_insert_None by done.
    by rewrite Hdiag, Hc0.
  - left. pose proof (Txn_rollback
      (insertStatementDiagnosticsTxn fuel env now requestID fp stmt bundle cerr)
      (store w)) as Hrb.
    rewrite Hrun in Hrb. by apply Hrb.
  - left. pose proof (Txn_rollback
      (insertStatementDiagnosticsTxn fuel env now requestID fp stmt bundle cerr)
      (store w)) as Hrb.
    rewrite Hrun in Hrb. by apply Hrb.
Qed.

Lemma raceDiagCalls_closed env requestID calls w :
  requestID ≠ 0 → isOpen (cat (store w)) requestID = false →
  cat (store (raceDiagCalls env requestID calls w)) = cat (store w).
Proof.
  intros Hne. unfold raceDiagCalls. revert w.
  induction calls as [|c calls IH]; intros w Hclosed; simpl; [done|].
  pose proof (InsertStatementDiagnostics_closed (call_fuel c) env (call_now c)
                requestID (call_fingerprint c) (call_stmt c) (call_bundle c)
                (call_error c) w Hne Hclosed) as Hw.
  unfold runDiagCall at 2. rewrite IH; rewrite Hw; done.
Qed.

Lemma runDiagCall_step env requestID w c :
  requestID ≠ 0 →
  cat (store (runDiagCall env requestID w c)) = cat (store w)
  ∨ (isOpen (cat (store w)) requestID = true
     ∧ isOpen (cat (store (runDiagCall env requestID w c))) requestID = false
     ∧ size (diagnostics (cat (store (runDiagCall env requestID w c))))
       = S (size (diagnostics (cat (store w))))).
Proof.
  intros Hne.
  exact (InsertStatementDiagnostics_step (call_fuel c) env (call_now c)
           requestID (call_fingerprint c) (call_stmt c) (call_bundle c)
           (call_error c) w Hne).
Qed.

Lemma raceDiagCalls_at_most_one env requestID calls w :
  requestID ≠ 0 →
  (size (diagnostics (cat (store (raceDiagCalls env requestID calls w))))
   ≤ S (size (diagnostics (cat (store w)))))%nat.
Proof.
  intros Hne. revert w.
  induction calls as [|c calls IH]; intros w; [simpl; lia|].
  change (raceDiagCalls env requestID (c :: calls) w)
    with (raceDiagCalls env requestID calls (runDiagCall env requestID w c)).
  destruct (runDiagCall_step env requestID w c Hne)
    as [Hsame|(Hopen & Hclosed & Hsize)].
  - specialize (IH (runDiagCall env requestID w c)). by rewrite Hsame in IH.
  - rewrite (raceDiagCalls_closed env requestID calls
               (runDiagCall env requestID w c) Hne Hclosed).
    rewrite Hsize. lia.
Qed.

End CompletionTxn.

Section Termination.







End Termination.

(** C1. [InsertStatementDiagnostics] for a non-zero request id that the
    requests table does not list as not completed writes nothing: the three
    tables, the in-memory index and the gossip sent are as before; it
    returns collected id 0 and no error once the executor runs the check
    (an executor failure of the check is returned as the error), and never
    a non-zero id.  Hence, of any series of calls for one request id, run one
    transaction after the other, at most one adds a row to the diagnostics
    table, and once the request is completed every further call leaves the
    catalog as it is. *)
Theorem C1_completed_request_writes_nothing :
  (∀ fuel env now requestID fp stmt bundle cerr w,
     requestID ≠ 0 →
     isOpen (cat (store w)) requestID = false →
     let out := InsertStatementDiagnostics fuel env now requestID fp stmt
                  bundle cerr w in
     cat (store out.2) = cat (store w)
     ∧ registry out.2 = registry w
     ∧ gossipSent out.2 = gossipSent w
     ∧ (executesNext (store w) = true → out.1 = Ok 0)
     ∧ (∀ d, out.1 = Ok d → d = 0)
     ∧ (∀ h, out.1 ≠ Halt h))
  ∧ (∀ env requestID calls w,
       requestID ≠ 0 →
       (size (diagnostics (cat (store (raceDiagCalls env requestID calls w))))
        ≤ S (size (diagnostics (cat (store w)))))%nat
       ∧ (isOpen (cat (store w)) requestID = false →
          cat (store (raceDiagCalls env requestID calls w)) = cat (store w))).
Proof.
  split.
  - intros fuel env now requestID fp stmt bundle cerr w Hne Hclosed out.
    unfold out. rewrite InsertStatementDiagnostics_closed by done.
    unfold executesNext. simpl.
    destruct (head (script (store w))) as [[]|]; repeat split; try done;
      by intros d [= <-].
  - intros env requestID calls w Hne. split.
    + by apply raceDiagCalls_at_most_one.
    + by apply raceDiagCalls_closed.
Qed.

Lemma C1_completed_request_writes_nothing_witness :
  let out := InsertStatementDiagnostics 20 exEnv16 200 7 "Q" "SELECT 1"
               exBundle20 None exDoneWorld in
  cat (store out.2) = cat (store exDoneWorld)
  ∧ registry out.2 = registry exDoneWorld
  ∧ gossipSent out.2 = gossipSent exDoneWorld
  ∧ (executesNext (store exDoneWorld) = true → out.1 = Ok 0)
  ∧ (∀ d, out.1 = Ok d → d = 0)
  ∧ (∀ h, out.1 ≠ Halt h).
Proof.
  apply (proj1 C1_completed_request_writes_nothing).
  - lia.
  - reflexivity.
Defined.




(** ** The in-memory index, operation by operation *)

Section Index.

Lemma withPending_id (r : Registry) : withPending (requestFingerprints r) r = r.
Proof. by destruct r. Qed.

Lemma withOngoing_id (r : Registry) : withOngoing (unconditionalOngoing r) r = r.
Proof. by destruct r. Qed.

Lemma scanFingerprints_inv now fp order :
  match scanFingerprints now fp order with
  | ScanNone => ∀ id req, (id, req) ∈ order → fingerprint req ≠ fp
  | ScanFound id req =>
      (id, req) ∈ order ∧ fingerprint req = fp ∧ isExpired req now = false
  | ScanExpired id =>
      ∃ req, (id, req) ∈ order ∧ fingerprint req = fp ∧ isExpired req now = true
  end.
Proof.
  induction order as [|[id f] rest IH]; simpl.
  - intros id req Hin. by apply elem_of_nil in Hin.
  - destruct (String.eqb (fingerprint f) fp) eqn:Hfp.
    + apply String.eqb_eq in Hfp.
      destruct (isExpired f now) eqn:Hexp.
      * exists f. split; [apply list_elem_of_here|done].
      * split; [apply list_elem_of_here|done].
    + apply String.eqb_neq in Hfp.
      destruct (scanFingerprints now fp rest) as [id'| id' f'|].
      * destruct IH as (req & Hin & H1 & H2). exists req.
        split; [by apply list_elem_of_further|done].
      * destruct IH as (Hin & H1 & H2).
        split; [by apply list_elem_of_further|done].
      * intros id' req Hin. apply elem_of_cons in Hin as [Heq|Hin].
        -- by inversion Heq; subst.
        -- by apply (IH id').
Qed.

(** When a single entry of the visit carries the fingerprint, the scan
    stops at it wherever it stands. *)
Lemma scanFingerprints_single now fp order id req :
  (id, req) ∈ order →
  (∀ id' req', (id', req') ∈ order → fingerprint req' = fp →
               id' = id ∧ req' = req) →
  fingerprint req = fp →
  scanFingerprints now fp order
  = if isExpired req now then ScanExpired id else ScanFound id req.
Proof.
  intros Hin Huniq Hfp.
  induction order as [|[id0 f0] rest IH]; [by apply elem_of_nil in Hin|].
  simpl. destruct (String.eqb (fingerprint f0) fp) eqn:Hfp0.
  - apply String.eqb_eq in Hfp0.
    destruct (Huniq id0 f0) as [-> ->]; [apply list_elem_of_here|done|done].
  - apply String.eqb_neq in Hfp0.
    apply elem_of_cons in Hin as [Heq|Hin].
    + inversion Heq; subst. done.
    + apply IH; [done|].
      intros id' req' Hin'. apply Huniq. by apply list_elem_of_further.
Qed.

Lemma scanFingerprints_order now fp r o1 o2 :
  rangeOrder o1 r → rangeOrder o2 r → onePendingFor fp r →
  scanFingerprints now fp o1 = scanFingerprints now fp o2.
Proof.
  intros H1 H2 Hone.
  assert (∀ id req, (id, req) ∈ o1 → fingerprint req = fp →
            scanFingerprints now fp o1
            = (if isExpired req now then ScanExpired id else ScanFound id req)
            ∧ scanFingerprints now fp o2
              = (if isExpired req now then ScanExpired id else ScanFound id req))
    as Hboth.
  { intros id req Hin Hfp.
    pose proof (proj1 (rangeOrder_elem o1 r id req H1) Hin) as Hl.
    assert (∀ o, rangeOrder o r →
              ∀ id' req', (id', req') ∈ o → fingerprint req' = fp →
                          id' = id ∧ req' = req) as Hu.
    { intros o Ho id' req' Hin' Hfp'.
      apply (rangeOrder_elem o r id' req' Ho) in Hin'.
      assert (id' = id) as -> by (by eapply Hone).
      split; [done|congruence]. }
    split; apply scanFingerprints_single; try done.
    - by apply Hu.
    - by apply (rangeOrder_elem o2 r id req H2).
    - by apply Hu. }
  pose proof (scanFingerprints_inv now fp o1) as Hinv.
  destruct (scanFingerprints now fp o1) as [id|id req|] eqn:Hs1.
  - destruct Hinv as (req & Hin & Hfp & Hexp).
    destruct (Hboth id req Hin Hfp) as [_ ->]. by rewrite Hexp.
  - destruct Hinv as (Hin & Hfp & Hexp).
    destruct (Hboth id req Hin Hfp) as [_ ->]. by rewrite Hexp.
  - symmetry. apply scanFingerprints_none.
    intros id req Hin. apply (Hinv id).
    apply (rangeOrder_elem o1 r id req H1).
    by apply (rangeOrder_elem o2 r id req H2).
Qed.

(** What an affirmative answer of [ShouldCollectDiagnostics] tells. *)
Lemma ShouldCollectDiagnostics_true_inv now order fp r id req r' :
  rangeOrder order r →
  ShouldCollectDiagnostics now order fp r = ((true, id, req), r') →
  requestFingerprints r !! id = Some req
  ∧ fingerprint req = fp ∧ isExpired req now = false ∧ id ≠ 0
  ∧ r' = withRand (sample req (rand r)).2
           (if isConditional req then r
            else withPending (delete id (requestFingerprints r))
                   (withOngoing (<[id := req]> (unconditionalOngoing r)) r))
  ∧ (sample req (rand r)).1 = true.
Proof.
  intros Hord. unfold ShouldCollectDiagnostics.
  destruct (decide (requestFingerprints r = ∅)); [done|].
  pose proof (scanFingerprints_inv now fp order) as Hinv.
  destruct (scanFingerprints now fp order) as [id0|id0 req0|]; [done| |done].
  destruct Hinv as (Hin & Hfp & Hexp).
  apply (rangeOrder_elem order r) in Hin; [|done].
  destruct (id0 =? 0) eqn:Hid0; [done|]. apply Z.eqb_neq in Hid0.
  assert (rand (if isConditional req0 then r
                else withPending (delete id0 (requestFingerprints r))
                       (withOngoing (<[id0 := req0]> (unconditionalOngoing r)) r))
          = rand r) as Hrand by (by destruct (isConditional req0)).
  rewrite Hrand.
  destruct (sample req0 (rand r)) as [hit g] eqn:Hs.
  destruct hit; [|done].
  intros [= <- <- <-]. rewrite Hs. done.
Qed.

End Index.

(** X1. [findRequest] reports an expired pending request once: the call
    answers [true] and deletes the entry, so that, the request not being
    ongoing, the next call for the same id answers [false]. *)
Theorem X1_findRequest_forgets_expired now now' id f r :
  requestFingerprints r !! id = Some f →
  isExpired f now = true →
  unconditionalOngoing r !! id = None →
  findRequest now id r
  = (true, withPending (delete id (requestFingerprints r)) r)
  ∧ findRequest now' id (findRequest now id r).2
    = (false, withPending (delete id (requestFingerprints r)) r).
Proof.
  intros Hl Hexp Hon.
  assert (findRequest now id r
          = (true, withPending (delete id (requestFingerprints r)) r)) as H1.
  { unfold findRequest, findRequestLocked. by rewrite Hl, Hexp. }
  split; [done|]. rewrite H1. simpl.
  unfold findRequest, findRequestLocked. simpl.
  by rewrite lookup_delete_eq, Hon.
Qed.

Lemma X1_findRequest_forgets_expired_witness :
  findRequest 111 1 (registry exWorld1)
  = (true,
     withPending (delete 1 (requestFingerprints (registry exWorld1)))
       (registry exWorld1))
  ∧ findRequest 112 1 (findRequest 111 1 (registry exWorld1)).2
    = (false,
       withPending (delete 1 (requestFingerprints (registry exWorld1)))
         (registry exWorld1)).
Proof.
  apply (X1_findRequest_forgets_expired 111 112 1 exRequestQ (registry exWorld1));
    vm_compute; reflexivity.
Defined.

(** X2. [addRequestInternalLocked] writes under [id] only when the registry
    does not know [id]: then the pending map receives exactly the given
    request, whether or not its expiry has passed already.  When [id] is
    pending or ongoing nothing is written (an expired pending entry is
    deleted, nothing else changes).  Other ids and the ongoing map are never
    touched. *)
Theorem X2_addRequest_only_if_unknown now id fp sp lat exp r :
  let r' := addRequestInternalLocked now id fp sp lat exp r in
  unconditionalOngoing r' = unconditionalOngoing r
  ∧ (∀ j, j ≠ id → requestFingerprints r' !! j = requestFingerprints r !! j)
  ∧ ((requestFingerprints r !! id = None ∧ unconditionalOngoing r !! id = None
      ∧ requestFingerprints r' !! id = Some (mkRequest fp sp lat exp))
     ∨ ((is_Some (requestFingerprints r !! id)
         ∨ is_Some (unconditionalOngoing r !! id))
        ∧ requestFingerprints r' ⊆ requestFingerprints r)).
Proof.
  intros r'. split; [apply addRequestInternalLocked_frame|].
  split.
  { intros j Hj. unfold r'. rewrite addRequestInternalLocked_lookup.
    by destruct (decide (j = id)). }
  pose proof (addRequestInternalLocked_lookup now id fp sp lat exp r) as Hlk.
  fold r' in Hlk.
  destruct (requestFingerprints r !! id) as [f|] eqn:Hp.
  - right. split; [left; by eexists|].
    apply map_subseteq_spec. intros j g. rewrite Hlk.
    destruct (decide (j = id)) as [->|]; [|done].
    rewrite Hp. by destruct (isExpired f now).
  - destruct (unconditionalOngoing r !! id) as [f|] eqn:Ho.
    + right. split; [right; by eexists|].
      apply map_subseteq_spec. intros j g. rewrite Hlk.
      by destruct (decide (j = id)) as [->|].
    + left. split; [done|]. split; [done|].
      rewrite Hlk. by rewrite decide_True by done.
Qed.

(** X3. After [cancelRequest] the registry does not know the id: it is in
    neither map and [findRequest] answers [false]; every other entry of both
    maps is as before; the epoch and the generator are untouched; and
    cancelling again changes nothing. *)
Theorem X3_cancelRequest_forgets id r :
  let r' := cancelRequest id r in
  requestFingerprints r' !! id = None
  ∧ unconditionalOngoing r' !! id = None
  ∧ (∀ now, findRequest now id r' = (false, r'))
  ∧ (∀ j, j ≠ id →
       requestFingerprints r' !! j = requestFingerprints r !! j
       ∧ unconditionalOngoing r' !! j = unconditionalOngoing r !! j)
  ∧ epoch r' = epoch r ∧ rand r' = rand r
  ∧ cancelRequest id r' = r'.
Proof.
  intros r'. unfold r', cancelRequest. simpl.
  split; [apply lookup_delete_eq|]. split; [apply lookup_delete_eq|].
  split.
  { intros now. unfold findRequest, findRequestLocked. simpl.
    by rewrite !lookup_delete_eq. }
  split.
  { intros j Hj. by rewrite !lookup_delete_ne. }
  split; [done|]. split; [done|].
  unfold withOngoing, withPending. simpl. by rewrite !delete_delete_eq.
Qed.

(** X4. [ShouldCollectDiagnostics] answers either [(false, 0, Request{})] or
    [(true, id, req)], and in the second case [req] was pending under [id],
    carries the fingerprint asked for, had not expired, [id] is not zero,
    and the sampling accepted it. *)
Theorem X4_ShouldCollectDiagnostics_sound now order fp r :
  rangeOrder order r →
  (ShouldCollectDiagnostics now order fp r).1 = (false, 0, emptyRequest)
  ∨ ∃ id req,
      (ShouldCollectDiagnostics now order fp r).1 = (true, id, req)
      ∧ requestFingerprints r !! id = Some req
      ∧ fingerprint req = fp
      ∧ isExpired req now = false
      ∧ id ≠ 0
      ∧ (sample req (rand r)).1 = true.
Proof.
  intros Hord.
  destruct (ShouldCollectDiagnostics now order fp r) as [[[b id] req] r'] eqn:Hs.
  destruct b.
  - right. exists id, req. split; [done|].
    destruct (ShouldCollectDiagnostics_true_inv _ _ _ _ _ _ _ Hord Hs)
      as (H1 & H2 & H3 & H4 & _ & H6). done.
  - left. revert Hs. unfold ShouldCollectDiagnostics.
    destruct (decide _); [by intros [= <- <- <-]|].
    destruct (scanFingerprints now fp order) as [?|id0 req0|];
      [by intros [= <- <- <-]| |by intros [= <- <- <-]].
    destruct (id0 =? 0); [by intros [= <- <- <-]|].
    destruct (sample req0 _) as [hit g]. destruct hit; [done|].
    by intros [= <- <- <-].
Qed.

Lemma X4_ShouldCollectDiagnostics_sound_witness :
  (ShouldCollectDiagnostics 105 [(1, exRequestQ)] "Q" (registry exWorld1)).1
  = (false, 0, emptyRequest)
  ∨ ∃ id req,
      (ShouldCollectDiagnostics 105 [(1, exRequestQ)] "Q" (registry exWorld1)).1
      = (true, id, req)
      ∧ requestFingerprints (registry exWorld1) !! id = Some req
      ∧ fingerprint req = "Q"
      ∧ isExpired req 105 = false
      ∧ id ≠ 0
      ∧ (sample req (rand (registry exWorld1))).1 = true.
Proof.
  apply (X4_ShouldCollectDiagnostics_sound 105 [(1, exRequestQ)] "Q"
           (registry exWorld1)).
  unfold rangeOrder.
  replace (requestFingerprints (registry exWorld1))
    with ({[1 := exRequestQ]} : gmap Z Request) by (vm_compute; reflexivity).
  rewrite map_to_list_singleton. reflexivity.
Defined.

(** X5. An unconditional request that an execution was told to trace is
    gone from the registry once the execution calls [RemoveOngoing]: the id
    is in neither map, and the rest of both maps is as before the
    admission. *)
Theorem X5_unconditional_served_then_forgotten now now' order fp r id req r1 :
  rangeOrder order r →
  ShouldCollectDiagnostics now order fp r = ((true, id, req), r1) →
  isConditional req = false →
  let r2 := RemoveOngoing now' id req r1 in
  requestFingerprints r2 = delete id (requestFingerprints r)
  ∧ unconditionalOngoing r2 = delete id (unconditionalOngoing r)
  ∧ (∀ t, findRequest t id r2 = (false, r2)).
Proof.
  intros Hord Hs Hunc r2.
  destruct (ShouldCollectDiagnostics_true_inv _ _ _ _ _ _ _ Hord Hs)
    as (Hl & Hfp & Hexp & Hid & -> & Hhit).
  unfold r2, RemoveOngoing. rewrite Hunc. simpl.
  assert (delete id (<[id:=req]> (unconditionalOngoing r))
          = delete id (unconditionalOngoing r)) as Hd
    by apply delete_insert_eq.
  split; [done|]. split; [done|].
  intros t. unfold findRequest, findRequestLocked. simpl.
  by rewrite lookup_delete_eq, lookup_delete_eq.
Qed.

Lemma X5_unconditional_served_then_forgotten_witness :
  let r2 := RemoveOngoing 106 1 exRequestQ (registry exWorld2) in
  requestFingerprints r2 = delete 1 (requestFingerprints (registry exWorld1))
  ∧ unconditionalOngoing r2 = delete 1 (unconditionalOngoing (registry exWorld1))
  ∧ (∀ t, findRequest t 1 r2 = (false, r2)).
Proof.
  apply (X5_unconditional_served_then_forgotten 105 106 [(1, exRequestQ)] "Q"
           (registry exWorld1) 1 exRequestQ (registry exWorld2)).
  - unfold rangeOrder.
    replace (requestFingerprints (registry exWorld1))
      with ({[1 := exRequestQ]} : gmap Z Request) by (vm_compute; reflexivity).
    rewrite map_to_list_singleton. reflexivity.
  - vm_compute. reflexivity.
  - reflexivity.
Defined.

(** X6. A conditional request that an execution was told to trace stays
    pending: the admission leaves both maps as they are, and as long as the
    request has not expired neither [IsExecLatencyConditionMet], whatever
    the latency, nor [RemoveOngoing] changes the registry. *)
Theorem X6_conditional_stays_pending now now' order fp r id req r1 lat :
  rangeOrder order r →
  ShouldCollectDiagnostics now order fp r = ((true, id, req), r1) →
  isConditional req = true →
  isExpired req now' = false →
  requestFingerprints r1 = requestFingerprints r
  ∧ unconditionalOngoing r1 = unconditionalOngoing r
  ∧ requestFingerprints r1 !! id = Some req
  ∧ IsExecLatencyConditionMet now' id req lat r1
    = (minExecutionLatency req <=? lat, r1)
  ∧ RemoveOngoing now' id req r1 = r1.
Proof.
  intros Hord Hs Hc Hexp'.
  destruct (ShouldCollectDiagnostics_true_inv _ _ _ _ _ _ _ Hord Hs)
    as (Hl & Hfp & Hexp & Hid & -> & Hhit).
  rewrite Hc. simpl. split; [done|]. split; [done|]. split; [done|].
  unfold IsExecLatencyConditionMet, RemoveOngoing. rewrite Hc, Hexp'.
  by destruct (minExecutionLatency req <=? lat).
Qed.

Lemma X6_conditional_stays_pending_witness :
  requestFingerprints exRegistryR = requestFingerprints exRegistryR
  ∧ unconditionalOngoing exRegistryR = unconditionalOngoing exRegistryR
  ∧ requestFingerprints exRegistryR !! 2 = Some exRequestR
  ∧ IsExecLatencyConditionMet 8 2 exRequestR 3 exRegistryR
    = (minExecutionLatency exRequestR <=? 3, exRegistryR)
  ∧ RemoveOngoing 8 2 exRequestR exRegistryR = exRegistryR.
Proof.
  apply (X6_conditional_stays_pending 7 8 [(2, exRequestR)] "R" exRegistryR 2
           exRequestR exRegistryR 3).
  - unfold rangeOrder. simpl. rewrite map_to_list_singleton. reflexivity.
  - vm_compute. reflexivity.
  - reflexivity.
  - reflexivity.
Defined.

(** X7. When at most one pending request carries the fingerprint, the
    answer of [ShouldCollectDiagnostics] and the registry it leaves do not
    depend on the order in which the [range] visits the map. *)
Theorem X7_visit_order_irrelevant now fp r o1 o2 :
  rangeOrder o1 r → rangeOrder o2 r → onePendingFor fp r →
  ShouldCollectDiagnostics now o1 fp r = ShouldCollectDiagnostics now o2 fp r.
Proof.
  intros H1 H2 Hone. unfold ShouldCollectDiagnostics.
  by rewrite (scanFingerprints_order now fp r o1 o2).
Qed.

Lemma X7_visit_order_irrelevant_witness :
  ShouldCollectDiagnostics 105 [(1, exRequestQ); (3, mkRequest "T" f64_zero 0 0)]
    "T" exPollRegistry
  = ShouldCollectDiagnostics 105
      [(3, mkRequest "T" f64_zero 0 0); (1, exRequestQ)] "T" exPollRegistry.
Proof.
  assert (map_to_list (requestFingerprints exPollRegistry)
          ≡ₚ [(1, exRequestQ); (3, mkRequest "T" f64_zero 0 0)]) as Hp.
  { unfold exPollRegistry. simpl.
    rewrite map_to_list_insert by (vm_compute; reflexivity).
    by rewrite map_to_list_singleton. }
  apply (X7_visit_order_irrelevant 105 "T" exPollRegistry).
  - unfold rangeOrder. by rewrite Hp.
  - unfold rangeOrder. rewrite Hp. apply Permutation_swap.
  - intros i j f g Hi Hj Hf Hg.
    unfold exPollRegistry in Hi, Hj. simpl in Hi, Hj.
    apply lookup_insert_Some in Hi as [[<- <-]|[_ Hi]]; [done|].
    apply lookup_insert_Some in Hj as [[<- <-]|[_ Hj]]; [done|].
    apply lookup_singleton_Some in Hi as [<- _].
    by apply lookup_singleton_Some in Hj as [<- _].
Defined.

(** ** Requests in the catalog *)

Section Catalog.

Lemma QueryRowEx_Some {A} (stmt : Catalog → Result (option A * Catalog)) st a st1 :
  QueryRowEx stmt st = (Ok (Some a), st1) →
  stmt (cat st) = Ok (Some a, cat st1)
  ∧ script st1 = tail (script st)
  ∧ executesNext st = true.
Proof.
  unfold QueryRowEx, executesNext.
  destruct (head (script st)) as [[| |]|]; try done.
  - destruct (stmt (cat st)) as [[row c']| |]; [|done|done].
    by intros [= -> <-].
  - destruct (stmt (cat st)) as [[row c']| |]; [|done|done].
    by intros [= -> <-].
Qed.

Lemma QueryRowEx_runs {A} (stmt : Catalog → Result (option A * Catalog)) st :
  executesNext st = true →
  QueryRowEx stmt st =
    match stmt (cat st) with
    | Ok (row, c') => (Ok row, mkExecState c' (tail (script st)))
    | Err e => (Err e, mkExecState (cat st) (tail (script st)))
    | Halt h => (Halt h, mkExecState (cat st) (tail (script st)))
    end.
Proof.
  unfold QueryRowEx, executesNext.
  by destruct (head (script st)) as [[| |]|].
Qed.

Lemma checkPending_zero now fp c :
  size (filter (λ kv : Z * RequestRow, isPendingFor now fp kv.2 = true)
          (requests c)) = 0%nat
  ↔ ¬ hasPending now fp c.
Proof.
  split.
  - intros Hsz (j & row & Hl & Hp). apply map_size_empty_inv in Hsz.
    by apply (map_filter_empty_not_lookup _ _ j row Hsz).
  - intros Hno. apply map_size_empty_iff. apply map_empty_filter.
    intros j row Hl Hp. apply Hno. by exists j, row.
Qed.

(** What a committed transaction of [insertRequestInternal] did. *)
Lemma insertRequestTxn_Ok now fp sp lat ea st id exp st' :
  insertRequestTxn now fp sp lat ea st = (Ok (id, exp), st') →
  exp = (if ea =? 0 then 0 else now + ea)
  ∧ id = next_rowid (cat st)
  ∧ requests (cat st) !! id = None
  ∧ ¬ hasPending now fp (cat st)
  ∧ cat st'
    = mkCatalog
        (<[id := mkRequestRow false fp None now
                   (if f64_ne_zero sp then Some sp else None)
                   (if lat =? 0 then None else Some lat)
                   (if ea =? 0 then None else Some exp)]> (requests (cat st)))
        (diagnostics (cat st)) (bundle_chunks (cat st)) (id + 1).
Proof.
  unfold insertRequestTxn. intros H.
  apply bind_Ok in H as (row & s1 & Hq & H).
  destruct row as [count|]; [|done].
  apply QueryRowEx_Some in Hq as (Hq & _ & _).
  unfold checkPendingStmt in Hq. injection Hq as Hcount Hc1.
  destruct (count =? 0) eqn:Hc; simpl in H; [|done].
  apply Z.eqb_eq in Hc. subst count.
  apply bind_Ok in H as (row2 & s2 & Hq2 & H).
  destruct row2 as [reqID|]; [|done].
  injection H as -> <- ->.
  apply QueryRowEx_Some in Hq2 as (Hq2 & _ & _).
  unfold insertRequestStmt in Hq2. rewrite <- Hc1 in Hq2.
  destruct (requests (cat st) !! next_rowid (cat st)) eqn:Hfree; [done|].
  injection Hq2 as <- Hcat.
  split; [done|]. split; [done|]. split; [done|].
  split; [|done].
  apply checkPending_zero. lia.
Qed.

Lemma insertRequestInternal_Ok env now fp sp lat ea w id w' :
  insertRequestInternal env now fp sp lat ea w = (Ok id, w') →
  passesChecks env sp lat = true
  ∧ ∃ exp,
      Txn (insertRequestTxn now fp sp lat ea) (store w) = (Ok (id, exp), store w')
      ∧ registry w'
        = addRequestInternalLocked now id fp sp lat exp
            (withEpoch (wrap64 (epoch (registry w) + 1)) (registry w))
      ∧ gossipSent w'
        = gossipSent w
          ++ [(KeyGossipStatementDiagnosticsRequest, PutUint64 (uint64 id))].
Proof.
  unfold insertRequestInternal, passesChecks.
  destruct (gossipAvailable env); simpl; [|done].
  destruct (negb (sampledStmtDiagReqsActive env) && f64_ne_zero sp); simpl;
    [done|].
  destruct (PrimFloat.ltb sp f64_zero || PrimFloat.ltb f64_one sp); simpl;
    [done|].
  destruct (f64_ne_zero sp && (lat =? 0)); simpl; [done|].
  destruct (Txn _ (store w)) as [[[id0 exp]| |] s']; [|done|done].
  intros [= <- <-]. split; [done|]. by exists exp.
Qed.

(** A call of [insertRequestInternal] that does not succeed leaves the
    catalog, the registry and the gossip log as they were. *)
Lemma insertRequestInternal_failed env now fp sp lat ea w :
  (∀ id, (insertRequestInternal env now fp sp lat ea w).1 ≠ Ok id) →
  registry (insertRequestInternal env now fp sp lat ea w).2 = registry w
  ∧ gossipSent (insertRequestInternal env now fp sp lat ea w).2 = gossipSent w
  ∧ cat (store (insertRequestInternal env now fp sp lat ea w).2) = cat (store w).
Proof.
  unfold insertRequestInternal.
  destruct (negb (gossipAvailable env)); [done|].
  destruct (negb (sampledStmtDiagReqsActive env) && f64_ne_zero sp); [done|].
  destruct (PrimFloat.ltb sp f64_zero || PrimFloat.ltb f64_one sp); [done|].
  destruct (f64_ne_zero sp && (lat =? 0)); [done|].
  pose proof (Txn_rollback (insertRequestTxn now fp sp lat ea) (store w)) as Hrb.
  destruct (Txn _ (store w)) as [[[id0 exp]| |] s']; simpl in *.
  - intros Hno. by destruct (Hno id0).
  - intros _. split; [done|]. split; [done|]. by apply Hrb.
  - intros _. split; [done|]. split; [done|]. by apply Hrb.
Qed.

Lemma InsertRequest_unfold env now fp sp lat ea w :
  InsertRequest env now fp sp lat ea w
  = (match (insertRequestInternal env now fp sp lat ea w).1 with
     | Ok _ => Ok tt
     | Err e => Err e
     | Halt h => Halt h
     end, (insertRequestInternal env now fp sp lat ea w).2).
Proof.
  unfold InsertRequest.
  by destruct (insertRequestInternal env now fp sp lat ea w) as [[| |] w'].
Qed.

Lemma CancelRequest_Ok env now id w w' :
  CancelRequest env now id w = (Ok tt, w') →
  ∃ row,
    requests (cat (store w)) !! id = Some row
    ∧ req_completed row = false
    ∧ notExpiredSQL now row = true
    ∧ cat (store w')
      = withRequests (<[id := cancelledRow row]> (requests (cat (store w))))
          (cat (store w))
    ∧ script (store w') = tail (script (store w))
    ∧ registry w' = cancelRequest id (registry w)
    ∧ gossipSent w'
      = gossipSent w
        ++ [(KeyGossipStatementDiagnosticsRequestCancellation,
             PutUint64 (uint64 id))].
Proof.
  unfold CancelRequest.
  destruct (negb (gossipAvailable env)); [done|].
  destruct (QueryRowEx (cancelRequestStmt now id) (store w))
    as [[[j|]| |] s'] eqn:Hq; try done.
  intros [= <-].
  apply QueryRowEx_Some in Hq as (Hq & Hscr & _).
  unfold cancelRequestStmt in Hq.
  destruct (requests (cat (store w)) !! id) as [row|] eqn:Hl; [|done].
  destruct (negb (req_completed row) && notExpiredSQL now row) eqn:Hopen;
    [|done].
  apply andb_true_iff in Hopen as [Hc He]. apply negb_true_iff in Hc.
  injection Hq as _ Hcat.
  exists row. simpl. by rewrite <- Hcat.
Qed.

Lemma notExpiredSQL_mono now now' row :
  now ≤ now' → notExpiredSQL now' row = true → notExpiredSQL now row = true.
Proof.
  unfold notExpiredSQL. destruct (req_expires_at row); [|done].
  intros Hle H. apply Z.ltb_lt in H. apply Z.ltb_lt. lia.
Qed.

Lemma isPendingFor_completed now fp row :
  req_completed row = true → isPendingFor now fp row = false.
Proof. unfold isPendingFor. by intros ->. Qed.

(** The invariant survives any write that adds no pending row and makes no
    row pending that was not. *)
Lemma uniquePending_shrink now c c' :
  (∀ j row', requests c' !! j = Some row' →
     req_completed row' = true
     ∨ ∃ row, requests c !! j = Some row
              ∧ ∀ fp, isPendingFor now fp row' = true →
                      isPendingFor now fp row = true) →
  uniquePending now c → uniquePending now c'.
Proof.
  intros Hsub Hu fp i j ri rj Hi Hj Hpi Hpj.
  destruct (Hsub i ri Hi) as [Hc|(ri0 & Hi0 & Hii)];
    [by rewrite (isPendingFor_completed _ _ _ Hc) in Hpi|].
  destruct (Hsub j rj Hj) as [Hc|(rj0 & Hj0 & Hjj)];
    [by rewrite (isPendingFor_completed _ _ _ Hc) in Hpj|].
  apply (Hu fp i j ri0 rj0); auto.
Qed.

Lemma addCompleted_requests fp d t c c' :
  addCompletedStmt fp d t c = Ok c' →
  requests c !! next_rowid c = None
  ∧ requests c'
    = <[next_rowid c := mkRequestRow true fp (Some d) t None None None]>
        (requests c)
  ∧ diagnostics c' = diagnostics c ∧ bundle_chunks c' = bundle_chunks c.
Proof.
  unfold addCompletedStmt, insertRequestStmt.
  destruct (requests c !! next_rowid c); [done|].
  by intros [= <-].
Qed.

Lemma ExecEx_Ok (stmt : Catalog → Result Catalog) st st' :
  ExecEx stmt st = (Ok tt, st') → stmt (cat st) = Ok (cat st').
Proof.
  unfold ExecEx.
  destruct (head (script st)) as [[| |]|]; try done;
    destruct (stmt (cat st)); try done; by intros [= <-].
Qed.

(** The request rows after the last statement of the completion
    transaction. *)
Lemma recordCompletion_requests requestID fp d t st st' :
  recordCompletion requestID fp d t st = (Ok tt, st') →
  if decide (requestID = 0)
  then requests (cat st) !! next_rowid (cat st) = None
       ∧ requests (cat st')
         = <[next_rowid (cat st) := mkRequestRow true fp (Some d) t None None None]>
             (requests (cat st))
  else requests (cat st')
       = match requests (cat st) !! requestID with
         | Some row => <[requestID := completedRow d row]> (requests (cat st))
         | None => requests (cat st)
         end.
Proof.
  unfold recordCompletion. destruct (decide (requestID = 0)) as [->|Hne].
  - simpl. intros H. apply ExecEx_Ok in H.
    by apply addCompleted_requests in H as (H1 & H2 & _).
  - rewrite (proj2 (Z.eqb_neq requestID 0) Hne). simpl.
    intros H. apply ExecEx_Ok in H. unfold markCompletedStmt in H.
    injection H as <-. by destruct (requests (cat st) !! requestID).
Qed.

(** The request rows after a completion transaction that committed and
    did not return early. *)
Lemma InsertStatementDiagnostics_requests fuel env now requestID fp stmt bundle
    cerr w diagID w' :
  InsertStatementDiagnostics fuel env now requestID fp stmt bundle cerr w
  = (Ok diagID, w') →
  requestID = 0 ∨ isOpen (cat (store w)) requestID = true →
  ∃ st2,
    requests (cat st2) = requests (cat (store w))
    ∧ recordCompletion requestID fp diagID now st2 = (Ok tt, store w').
Proof.
  unfold InsertStatementDiagnostics.
  destruct (Txn _ (store w)) as [res s'] eqn:HT.
  intros [= -> <-] Hopen. simpl.
  apply Txn_Ok in HT. apply insertStatementDiagnosticsTxn_Ok in HT.
  destruct HT as [(Hne & Hcl & _)|(_ & st0 & ids & st1 & st2 & H0 & Hch & Hd & Hrc)].
  { destruct Hopen as [->|Ho]; [done|]. by rewrite Ho in Hcl. }
  exists st2. split; [|done].
  apply insertChunks_frame in Hch as [Hr1 _].
  apply insertDiagnostics_step in Hd as [_ Hc2].
  rewrite Hc2. simpl. by rewrite Hr1, H0.
Qed.

End Catalog.


Section CatalogInvariant.

Lemma InsertStatementDiagnostics_failed fuel env now requestID fp stmt bundle
    cerr w :
  (∀ d, (InsertStatementDiagnostics fuel env now requestID fp stmt bundle cerr
           w).1 ≠ Ok d) →
  cat (store (InsertStatementDiagnostics fuel env now requestID fp stmt bundle
                cerr w).2) = cat (store w).
Proof.
  unfold InsertStatementDiagnostics.
  pose proof (Txn_rollback
                (insertStatementDiagnosticsTxn fuel env now requestID fp stmt
                   bundle cerr) (store w)) as Hrb.
  destruct (Txn _ (store w)) as [res s']. simpl in *. exact Hrb.
Qed.

Lemma insertRequest_unique env now fp sp lat ea w :
  uniquePending now (cat (store w)) →
  uniquePending now (cat (store (insertRequestInternal env now fp sp lat ea w).2)).
Proof.
  intros Hu.
  destruct (insertRequestInternal env now fp sp lat ea w) as [res w'] eqn:Hi.
  destruct res as [id|e|h]; simpl.
  - apply insertRequestInternal_Ok in Hi as (_ & exp & HT & _).
    apply Txn_Ok, insertRequestTxn_Ok in HT as (_ & _ & Hfree & Hno & Hcat).
    rewrite Hcat. intros fp' i j ri rj. simpl.
    rewrite !lookup_insert_Some.
    intros [[<- <-]|[Hi' Hli]] [[<- <-]|[Hj' Hlj]] Hpi Hpj; try done.
    + exfalso. apply Hno. exists j, rj. split; [done|].
      unfold isPendingFor in Hpi. simpl in Hpi.
      apply andb_true_iff in Hpi as [Hpi _].
      apply String.eqb_eq in Hpi. by subst fp'.
    + exfalso. apply Hno. exists i, ri. split; [done|].
      unfold isPendingFor in Hpj. simpl in Hpj.
      apply andb_true_iff in Hpj as [Hpj _].
      apply String.eqb_eq in Hpj. by subst fp'.
    + by apply (Hu fp' i j ri rj).
  - pose proof (insertRequestInternal_failed env now fp sp lat ea w) as Hf.
    rewrite Hi in Hf. simpl in Hf.
    destruct Hf as (_ & _ & ->); [done|done].
  - pose proof (insertRequestInternal_failed env now fp sp lat ea w) as Hf.
    rewrite Hi in Hf. simpl in Hf.
    destruct Hf as (_ & _ & ->); [done|done].
Qed.

Lemma CancelRequest_failed env now id w :
  (CancelRequest env now id w).1 ≠ Ok tt →
  cat (store (CancelRequest env now id w).2) = cat (store w).
Proof.
  unfold CancelRequest, QueryRowEx, cancelRequestStmt.
  destruct (negb (gossipAvailable env)); [done|].
  destruct (head (script (store w))) as [[]|]; simpl; try done.
  all: destruct (requests (cat (store w)) !! id) as [row|]; simpl; try done.
  all: by destruct (negb (req_completed row) && notExpiredSQL now row).
Qed.

Lemma CancelRequest_unique env now id w :
  uniquePending now (cat (store w)) →
  uniquePending now (cat (store (CancelRequest env now id w).2)).
Proof.
  intros Hu.
  destruct (CancelRequest env now id w) as [res w'] eqn:Hc.
  assert (res = Ok tt ∨ res ≠ Ok tt) as [->|Hne]
    by (destruct res as [[]| |]; [by left|by right|by right]).
  - simpl. apply CancelRequest_Ok in Hc
      as (row & Hl & Hcomp & Hexp & Hcat & _).
    apply (uniquePending_shrink now (cat (store w))); [|done].
    rewrite Hcat. simpl. intros j row'.
    rewrite lookup_insert_Some. intros [[<- <-]|[Hne Hlj]].
    + right. exists row. split; [done|]. intros fp.
      unfold isPendingFor, cancelledRow. simpl.
      rewrite Hcomp, Hexp. simpl.
      intros H. apply andb_true_iff in H as [H _]. by rewrite H.
    + right. by exists row'.
  - pose proof (CancelRequest_failed env now id w) as Hf.
    rewrite Hc in Hf. simpl in *. by rewrite Hf.
Qed.

Lemma InsertStatementDiagnostics_unique fuel env now requestID fp stmt bundle
    cerr w :
  uniquePending now (cat (store w)) →
  uniquePending now
    (cat (store (InsertStatementDiagnostics fuel env now requestID fp stmt
                   bundle cerr w).2)).
Proof.
  intros Hu.
  destruct (decide (requestID ≠ 0 ∧ isOpen (cat (store w)) requestID = false))
    as [[Hne Hcl]|Hopen].
  { rewrite InsertStatementDiagnostics_closed by done. done. }
  assert (requestID = 0 ∨ isOpen (cat (store w)) requestID = true) as Ho.
  { destruct (decide (requestID = 0)); [by left|right].
    destruct (isOpen (cat (store w)) requestID) eqn:E; [done|].
    by destruct Hopen. }
  destruct (InsertStatementDiagnostics fuel env now requestID fp stmt bundle
              cerr w) as [res w'] eqn:Hi.
  destruct res as [d|e|h]; simpl.
  - destruct (InsertStatementDiagnostics_requests _ _ _ _ _ _ _ _ _ _ _ Hi Ho)
      as (st2 & Hreq & Hrc).
    apply recordCompletion_requests in Hrc.
    apply (uniquePending_shrink now (cat (store w))); [|done].
    intros j row' Hl.
    destruct (decide (requestID = 0)) as [->|Hne].
    + destruct Hrc as [_ Hrc]. rewrite Hrc, Hreq in Hl.
      apply lookup_insert_Some in Hl as [[_ <-]|[_ Hl]]; [by left|].
      right. by exists row'.
    + rewrite Hreq in Hrc.
      destruct (requests (cat (store w)) !! requestID) as [row|];
        rewrite Hrc in Hl.
      * apply lookup_insert_Some in Hl as [[_ <-]|[_ Hl]]; [by left|].
        right. by exists row'.
      * right. by exists row'.
  - pose proof (InsertStatementDiagnostics_failed fuel env now requestID fp
                  stmt bundle cerr w) as Hf.
    rewrite Hi in Hf. simpl in Hf. by rewrite Hf.
  - pose proof (InsertStatementDiagnostics_failed fuel env now requestID fp
                  stmt bundle cerr w) as Hf.
    rewrite Hi in Hf. simpl in Hf. by rewrite Hf.
Qed.

End CatalogInvariant.

(** X8. A successful [insertRequestInternal] returns the id the catalog
    assigned.  The catalog listed no request for the fingerprint that was
    neither completed nor expired, and now holds under that id an open row
    with the fingerprint, the instant of the call and the optional columns (a
    zero probability, latency or lifetime is left [NULL]).  One gossip
    message carrying the id was sent.  And, the registry not knowing that id
    before, the request is pending in it when the call returns. *)
Theorem X8_insertRequest_effect env now fp sp lat ea w id w' :
  insertRequestInternal env now fp sp lat ea w = (Ok id, w') →
  id = next_rowid (cat (store w))
  ∧ requests (cat (store w)) !! id = None
  ∧ ¬ hasPending now fp (cat (store w))
  ∧ requests (cat (store w'))
    = <[id := mkRequestRow false fp None now
               (if f64_ne_zero sp then Some sp else None)
               (if lat =? 0 then None else Some lat)
               (if ea =? 0 then None else Some (now + ea))]>
        (requests (cat (store w)))
  ∧ gossipSent w'
    = gossipSent w
      ++ [(KeyGossipStatementDiagnosticsRequest, PutUint64 (uint64 id))]
  ∧ (requestFingerprints (registry w) !! id = None →
     unconditionalOngoing (registry w) !! id = None →
     requestFingerprints (registry w') !! id
     = Some (mkRequest fp sp lat (if ea =? 0 then 0 else now + ea))).
Proof.
  intros Hi.
  apply insertRequestInternal_Ok in Hi as (_ & exp & HT & Hreg & Hg).
  apply Txn_Ok, insertRequestTxn_Ok in HT as (-> & Hid & Hfree & Hno & Hcat).
  split; [done|]. split; [done|]. split; [done|].
  split.
  { rewrite Hcat. simpl. by destruct (ea =? 0). }
  split; [done|].
  intros Hp Ho. rewrite Hreg, addRequestInternalLocked_lookup.
  rewrite decide_True by done. simpl. by rewrite Hp, Ho.
Qed.

Lemma X8_insertRequest_effect_witness :
  1 = next_rowid (cat (store exWorld))
  ∧ requests (cat (store exWorld)) !! 1 = None
  ∧ ¬ hasPending 100 "Q" (cat (store exWorld))
  ∧ requests (cat (store exWorld1))
    = <[1 := mkRequestRow false "Q" None 100
               (if f64_ne_zero f64_zero then Some f64_zero else None)
               (if 0 =? 0 then None else Some 0)
               (if 10 =? 0 then None else Some (100 + 10))]>
        (requests (cat (store exWorld)))
  ∧ gossipSent exWorld1
    = gossipSent exWorld
      ++ [(KeyGossipStatementDiagnosticsRequest, PutUint64 (uint64 1))]
  ∧ (requestFingerprints (registry exWorld) !! 1 = None →
     unconditionalOngoing (registry exWorld) !! 1 = None →
     requestFingerprints (registry exWorld1) !! 1
     = Some (mkRequest "Q" f64_zero 0 (if 10 =? 0 then 0 else 100 + 10))).
Proof.
  apply (X8_insertRequest_effect exEnv 100 "Q" f64_zero 0 10 exWorld 1 exWorld1).
  vm_compute. reflexivity.
Defined.

(** X9. While the catalog lists a request for the fingerprint that is
    neither completed nor expired, [InsertRequest] for that fingerprint does
    not succeed and leaves the catalog, the registry and the gossip log as
    they were; when the arguments pass the checks and the executor runs the
    statement, the error is the one that asks to cancel the existing request
    first. *)
Theorem X9_insertRequest_conflict env now fp sp lat ea w :
  hasPending now fp (cat (store w)) →
  (InsertRequest env now fp sp lat ea w).1 ≠ Ok tt
  ∧ registry (InsertRequest env now fp sp lat ea w).2 = registry w
  ∧ gossipSent (InsertRequest env now fp sp lat ea w).2 = gossipSent w
  ∧ cat (store (InsertRequest env now fp sp lat ea w).2) = cat (store w)
  ∧ (passesChecks env sp lat = true → executesNext (store w) = true →
     (InsertRequest env now fp sp lat ea w).1 = Err ErrPendingRequestExists).
Proof.
  intros Hp.
  assert (∀ id, (insertRequestInternal env now fp sp lat ea w).1 ≠ Ok id) as Hno.
  { intros id Hok.
    destruct (insertRequestInternal env now fp sp lat ea w) as [res w'] eqn:Hi.
    simpl in Hok. subst res.
    apply insertRequestInternal_Ok in Hi as (_ & exp & HT & _).
    by apply Txn_Ok, insertRequestTxn_Ok in HT as (_ & _ & _ & Hnp & _). }
  destruct (insertRequestInternal_failed env now fp sp lat ea w Hno)
    as (Hr & Hg & Hc).
  rewrite InsertRequest_unfold. simpl.
  split.
  { destruct (insertRequestInternal env now fp sp lat ea w).1 as [id| |] eqn:E;
      [by destruct (Hno id)|done|done]. }
  split; [done|]. split; [done|]. split; [done|].
  intros Hchk Hrun. unfold insertRequestInternal.
  unfold passesChecks in Hchk.
  apply andb_true_iff in Hchk as [Hchk H4].
  apply andb_true_iff in Hchk as [Hchk H3].
  apply andb_true_iff in Hchk as [H1 H2].
  apply negb_true_iff in H2, H3, H4.
  rewrite H1, H2, H3, H4. simpl.
  unfold Txn, insertRequestTxn, bind.
  rewrite (QueryRowEx_runs _ _ Hrun). unfold checkPendingStmt.
  assert ((Z.of_nat (size (filter (λ kv : Z * RequestRow,
                                     isPendingFor now fp kv.2 = true)
                             (requests (cat (store w))))) =? 0) = false) as Hcnt.
  { apply Z.eqb_neq. intros H0.
    apply (proj1 (checkPending_zero now fp (cat (store w)))); [lia|done]. }
  by rewrite Hcnt.
Qed.

Lemma X9_insertRequest_conflict_witness :
  (InsertRequest exEnv 101 "Q" f64_zero 0 0 exWorld1).1 ≠ Ok tt
  ∧ registry (InsertRequest exEnv 101 "Q" f64_zero 0 0 exWorld1).2
    = registry exWorld1
  ∧ gossipSent (InsertRequest exEnv 101 "Q" f64_zero 0 0 exWorld1).2
    = gossipSent exWorld1
  ∧ cat (store (InsertRequest exEnv 101 "Q" f64_zero 0 0 exWorld1).2)
    = cat (store exWorld1)
  ∧ (passesChecks exEnv f64_zero 0 = true →
     executesNext (store exWorld1) = true →
     (InsertRequest exEnv 101 "Q" f64_zero 0 0 exWorld1).1
     = Err ErrPendingRequestExists).
Proof.
  apply (X9_insertRequest_conflict exEnv 101 "Q" f64_zero 0 0 exWorld1).
  exists 1, (mkRequestRow false "Q" None 100 None None (Some 110)).
  split; vm_compute; reflexivity.
Defined.

(** X10. A successful [CancelRequest] found the request open and unexpired
    and set its expiry to 1970-01-01, leaving the row open so that a bundle
    being collected for it can still be recorded; the registry forgot the id
    and one cancellation message was gossiped.  From 1970 on the row counts
    as pending for no fingerprint, and cancelling the request again does not
    succeed. *)
Theorem X10_cancel_effect env now id w w' :
  CancelRequest env now id w = (Ok tt, w') →
  ∃ row,
    requests (cat (store w)) !! id = Some row
    ∧ req_completed row = false
    ∧ notExpiredSQL now row = true
    ∧ requests (cat (store w'))
      = <[id := cancelledRow row]> (requests (cat (store w)))
    ∧ isOpen (cat (store w')) id = true
    ∧ registry w' = cancelRequest id (registry w)
    ∧ gossipSent w'
      = gossipSent w
        ++ [(KeyGossipStatementDiagnosticsRequestCancellation,
             PutUint64 (uint64 id))]
    ∧ ∀ now', unixEpoch ≤ now' →
        (∀ fp, isPendingFor now' fp (cancelledRow row) = false)
        ∧ ∀ env', (CancelRequest env' now' id w').1 ≠ Ok tt.
Proof.
  intros Hc.
  apply CancelRequest_Ok in Hc
    as (row & Hl & Hcomp & Hexp & Hcat & _ & Hreg & Hg).
  exists row. split; [done|]. split; [done|]. split; [done|].
  assert (requests (cat (store w'))
          = <[id := cancelledRow row]> (requests (cat (store w)))) as Hreq
    by (by rewrite Hcat).
  split; [done|].
  split.
  { unfold isOpen. rewrite Hreq, lookup_insert_eq. simpl. by rewrite Hcomp. }
  split; [done|]. split; [done|].
  intros now' Hle.
  assert (notExpiredSQL now' (cancelledRow row) = false) as Hx.
  { unfold notExpiredSQL, cancelledRow. simpl. apply Z.ltb_ge. lia. }
  split.
  { intros fp. unfold isPendingFor. rewrite Hx. apply andb_false_r. }
  intros env' Hok.
  destruct (CancelRequest env' now' id w') as [res w2] eqn:Hc2.
  simpl in Hok. subst res.
  apply CancelRequest_Ok in Hc2 as (row2 & Hl2 & _ & Hexp2 & _).
  rewrite Hreq, lookup_insert_eq in Hl2. injection Hl2 as <-.
  by rewrite Hx in Hexp2.
Qed.

Lemma X10_cancel_effect_witness :
  ∃ row,
    requests (cat (store exWorld1)) !! 1 = Some row
    ∧ req_completed row = false
    ∧ notExpiredSQL 105 row = true
    ∧ requests (cat (store (CancelRequest exEnv 105 1 exWorld1).2))
      = <[1 := cancelledRow row]> (requests (cat (store exWorld1)))
    ∧ isOpen (cat (store (CancelRequest exEnv 105 1 exWorld1).2)) 1 = true
    ∧ registry (CancelRequest exEnv 105 1 exWorld1).2
      = cancelRequest 1 (registry exWorld1)
    ∧ gossipSent (CancelRequest exEnv 105 1 exWorld1).2
      = gossipSent exWorld1
        ++ [(KeyGossipStatementDiagnosticsRequestCancellation,
             PutUint64 (uint64 1))]
    ∧ ∀ now', unixEpoch ≤ now' →
        (∀ fp, isPendingFor now' fp (cancelledRow row) = false)
        ∧ ∀ env',
            (CancelRequest env' now' 1 (CancelRequest exEnv 105 1 exWorld1).2).1
            ≠ Ok tt.
Proof.
  apply (X10_cancel_effect exEnv 105 1 exWorld1
           (CancelRequest exEnv 105 1 exWorld1).2).
  vm_compute. reflexivity.
Defined.

(** X11. A completion that is committed for an open request turns that
    request's row into a completed one that points to the new diagnostics
    row, every other column and every other request row staying as it was; a
    completion without a request (id zero) adds a completed row for the
    fingerprint under an id that was free. *)
Theorem X11_completion_recorded fuel env now requestID fp stmt bundle cerr w
    diagID w' :
  InsertStatementDiagnostics fuel env now requestID fp stmt bundle cerr w
  = (Ok diagID, w') →
  requestID = 0 ∨ isOpen (cat (store w)) requestID = true →
  if decide (requestID = 0)
  then ∃ k,
         requests (cat (store w)) !! k = None
         ∧ requests (cat (store w'))
           = <[k := mkRequestRow true fp (Some diagID) now None None None]>
               (requests (cat (store w)))
  else ∃ row,
         requests (cat (store w)) !! requestID = Some row
         ∧ req_completed row = false
         ∧ requests (cat (store w'))
           = <[requestID := completedRow diagID row]> (requests (cat (store w)))
         ∧ isOpen (cat (store w')) requestID = false.
Proof.
  intros Hi Ho.
  destruct (InsertStatementDiagnostics_requests _ _ _ _ _ _ _ _ _ _ _ Hi Ho)
    as (st2 & Hreq & Hrc).
  apply recordCompletion_requests in Hrc.
  destruct (decide (requestID = 0)) as [->|Hne].
  - destruct Hrc as [Hfree Hrc]. exists (next_rowid (cat st2)).
    by rewrite <- Hreq.
  - destruct Ho as [->|Ho]; [done|].
    unfold isOpen in Ho. rewrite Hreq in Hrc.
    destruct (requests (cat (store w)) !! requestID) as [row|] eqn:Hl; [|done].
    exists row. split; [done|]. split; [by apply negb_true_iff in Ho|].
    split; [done|].
    unfold isOpen. by rewrite Hrc, lookup_insert_eq.
Qed.

Lemma X11_completion_recorded_witness :
  if decide (1 = 0)
  then ∃ k,
         requests (cat (store exWorld1)) !! k = None
         ∧ requests
             (cat (store (InsertStatementDiagnostics 20 exEnv16 105 1 "Q"
                            "SELECT 1" exBundle20 None exWorld1).2))
           = <[k := mkRequestRow true "Q" (Some 4) 105 None None None]>
               (requests (cat (store exWorld1)))
  else ∃ row,
         requests (cat (store exWorld1)) !! 1 = Some row
         ∧ req_completed row = false
         ∧ requests
             (cat (store (InsertStatementDiagnostics 20 exEnv16 105 1 "Q"
                            "SELECT 1" exBundle20 None exWorld1).2))
           = <[1 := completedRow 4 row]> (requests (cat (store exWorld1)))
         ∧ isOpen
             (cat (store (InsertStatementDiagnostics 20 exEnv16 105 1 "Q"
                            "SELECT 1" exBundle20 None exWorld1).2)) 1
           = false.
Proof.
  apply (X11_completion_recorded 20 exEnv16 105 1 "Q" "SELECT 1" exBundle20 None
           exWorld1 4
           (InsertStatementDiagnostics 20 exEnv16 105 1 "Q" "SELECT 1"
              exBundle20 None exWorld1).2).
  - vm_compute. reflexivity.
  - right. vm_compute. reflexivity.
Defined.

(** X12. The catalog never comes to list two requests for one fingerprint
    that are neither completed nor expired: when it lists at most one per
    fingerprint at some instant, so it does at any later instant, and after
    any call of [InsertRequest], [CancelRequest] or
    [InsertStatementDiagnostics] made at that instant, whatever the
    arguments and whatever the outcome. *)
Theorem X12_one_pending_request_per_fingerprint now w :
  uniquePending now (cat (store w)) →
  (∀ now', now ≤ now' → uniquePending now' (cat (store w)))
  ∧ (∀ env fp sp lat ea,
       uniquePending now (cat (store (InsertRequest env now fp sp lat ea w).2)))
  ∧ (∀ env id, uniquePending now (cat (store (CancelRequest env now id w).2)))
  ∧ (∀ fuel env requestID fp stmt bundle cerr,
       uniquePending now
         (cat (store (InsertStatementDiagnostics fuel env now requestID fp stmt
                        bundle cerr w).2))).
Proof.
  intros Hu. split.
  { intros now' Hle fp i j ri rj Hi Hj Hpi Hpj.
    apply (Hu fp i j ri rj Hi Hj).
    - unfold isPendingFor in *.
      apply andb_true_iff in Hpi as [H1 H2]. rewrite H1. simpl.
      by apply (notExpiredSQL_mono now now').
    - unfold isPendingFor in *.
      apply andb_true_iff in Hpj as [H1 H2]. rewrite H1. simpl.
      by apply (notExpiredSQL_mono now now'). }
  split.
  { intros env fp sp lat ea. rewrite InsertRequest_unfold. simpl.
    by apply insertRequest_unique. }
  split.
  { intros env id. by apply CancelRequest_unique. }
  intros. by apply InsertStatementDiagnostics_unique.
Qed.

Lemma X12_one_pending_request_per_fingerprint_witness :
  (∀ now', 100 ≤ now' → uniquePending now' (cat (store exWorld1)))
  ∧ (∀ env fp sp lat ea,
       uniquePending 100
         (cat (store (InsertRequest env 100 fp sp lat ea exWorld1).2)))
  ∧ (∀ env id,
       uniquePending 100 (cat (store (CancelRequest env 100 id exWorld1).2)))
  ∧ (∀ fuel env requestID fp stmt bundle cerr,
       uniquePending 100
         (cat (store (InsertStatementDiagnostics fuel env 100 requestID fp stmt
                        bundle cerr exWorld1).2))).
Proof.
  apply (X12_one_pending_request_per_fingerprint 100 exWorld1).
  intros fp i j ri rj.
  replace (requests (cat (store exWorld1)))
    with ({[1 := mkRequestRow false "Q" None 100 None None (Some 110)]}
            : gmap Z RequestRow) by (vm_compute; reflexivity).
  intros Hi Hj _ _.
  apply lookup_singleton_Some in Hi as [<- _].
  by apply lookup_singleton_Some in Hj as [<- _].
Defined.

(** ** What a poll keeps, and when it starts over *)

Section PollSoundness.

Lemma attemptRows_listed env a id :
  id ∈ pr_id <$> attemptRows env a →
  ∃ row, requests (cat (attemptStore a)) !! id = Some row
         ∧ req_completed row = false
         ∧ notExpiredSQL (attemptSqlNow a) row = true.
Proof.
  unfold attemptRows, QueryIteratorEx, pollStmt.
  destruct (head (script (attemptStore a))) as [[]|];
    try (simpl; intros H; by apply elem_of_nil in H).
  all: rewrite <- list_fmap_compose; intros H;
    apply list_elem_of_fmap in H as ([k rr] & -> & Hin);
    apply elem_of_map_to_list in Hin;
    apply map_lookup_filter_Some in Hin as [Hl Hp]; simpl in *;
    apply andb_true_iff in Hp as [Hc Hx]; apply negb_true_iff in Hc;
    by exists rr.
Qed.

Lemma applyPoll_kept supported now rows r id f :
  requestFingerprints (applyPoll supported now rows r) !! id = Some f →
  isExpired f now = false ∧ id ∈ pr_id <$> rows.
Proof.
  unfold applyPoll.
  pose proof (applyRows_ids supported now rows ∅ r) as Hids.
  destruct (foldl _ _ rows) as [ids r1]. simpl in *.
  intros Hl. apply map_lookup_filter_Some in Hl as [_ Hp]. simpl in Hp.
  split.
  - destruct (isExpired f now); [|done]. destruct Hp. by right.
  - destruct (decide (id ∈ ids)) as [Hin|Hout]; [|destruct Hp; by left].
    rewrite Hids, (right_id_L ∅ (∪)) in Hin.
    by apply elem_of_list_to_set in Hin.
Qed.

Lemma wrap64_wrap64 x y : wrap64 (wrap64 x + y) = wrap64 (x + y).
Proof.
  unfold wrap64.
  replace ((x + 2 ^ 63) mod 2 ^ 64 - 2 ^ 63 + y + 2 ^ 63)
    with ((x + 2 ^ 63) mod 2 ^ 64 + y) by lia.
  rewrite Zplus_mod_idemp_l. f_equal. f_equal. lia.
Qed.

Lemma inserts_cons op ops :
  inserts (op :: ops) = (if isInsert op then 1 else 0) + inserts ops.
Proof.
  unfold inserts. simpl. destruct (isInsert op); simpl; lia.
Qed.

Lemma inserts_nonneg ops : 0 ≤ inserts ops.
Proof. unfold inserts. lia. Qed.

(** The epoch after operations of other goroutines: it has grown, modulo
    the width of [int], by the number of local inserts among them. *)
Lemma runLocals_epoch ops r :
  epoch (runLocals ops r)
  = if inserts ops =? 0 then epoch r else wrap64 (epoch r + inserts ops).
Proof.
  revert r. induction ops as [|op ops IH]; intros r; [done|].
  change (runLocals (op :: ops) r) with (runLocals ops (runLocal op r)).
  rewrite IH, runLocal_epoch, inserts_cons.
  pose proof (inserts_nonneg ops) as Hn.
  destruct op; simpl; try done.
  destruct (Z.eqb_spec (inserts ops) 0) as [->|Hne].
  - done.
  - rewrite wrap64_wrap64.
    destruct (Z.eqb_spec (1 + inserts ops) 0); [lia|]. f_equal. lia.
Qed.

Lemma wrap64_moved e k :
  - 2 ^ 63 ≤ e ≤ maxInt64 → 0 < k < 2 ^ 64 → wrap64 (e + k) ≠ e.
Proof.
  unfold wrap64, maxInt64. intros He Hk Heq.
  assert ((e + k + 2 ^ 63) mod 2 ^ 64 = e + 2 ^ 63) as H1 by lia.
  pose proof (Z.div_mod (e + k + 2 ^ 63) (2 ^ 64)) as Hdm.
  rewrite H1 in Hdm.
  assert (k = 2 ^ 64 * ((e + k + 2 ^ 63) / 2 ^ 64)) as Hk' by lia.
  nia.
Qed.

Lemma insertChunks_stuck s fuel :
  s ≤ 0 → ∀ bundle acc st ids st',
  bundle ≠ [] → insertChunks fuel s bundle acc st ≠ (Ok ids, st').
Proof.
  intros Hs. induction fuel as [|fuel IH]; intros bundle acc st ids st' Hne.
  - by destruct bundle.
  - destruct bundle as [|b0 bs]; [done|].
    rewrite insertChunks_cons. cbv zeta.
    assert ((Z.of_nat (length (b0 :: bs)) >? s) = true) as Hgt
      by (apply Z.gtb_lt; simpl length; lia).
    rewrite Hgt.
    destruct (Z.ltb_spec s 0) as [Hneg|Hpos]; [done|].
    assert (s = 0) as -> by lia.
    change (Z.to_nat 0) with 0%nat. simpl. unfold bind.
    destruct (QueryRowEx (insertChunkStmt []) st) as [[[id|]| |] s1]; try done.
    by apply IH.
Qed.

End PollSoundness.

(** X13. Whatever a successful poll leaves pending has not expired by the
    registry's clock and is listed by the catalog, as one of the poll's
    reads found it, as neither completed nor expired: a request that every
    read finds completed, cancelled or missing is pending no more. *)
Theorem X13_poll_keeps_only_listed env now attempts r r' id f :
  pollRequests env now attempts r = (Ok tt, r') →
  requestFingerprints r' !! id = Some f →
  isExpired f now = false
  ∧ ∃ a row,
      a ∈ attempts
      ∧ requests (cat (attemptStore a)) !! id = Some row
      ∧ req_completed row = false
      ∧ notExpiredSQL (attemptSqlNow a) row = true.
Proof.
  intros Hpoll Hl.
  apply pollRequests_success in Hpoll as (k & a & Hk & _ & _ & ->).
  apply applyPoll_kept in Hl as [Hexp Hin]. split; [done|].
  apply attemptRows_listed in Hin as (row & H1 & H2 & H3).
  exists a, row. split; [by eapply list_elem_of_lookup_2|done].
Qed.

Lemma X13_poll_keeps_only_listed_witness :
  isExpired exRequestQ 105 = false
  ∧ ∃ a row,
      a ∈ [exPollAttempt]
      ∧ requests (cat (attemptStore a)) !! 1 = Some row
      ∧ req_completed row = false
      ∧ notExpiredSQL (attemptSqlNow a) row = true.
Proof.
  apply (X13_poll_keeps_only_listed exEnv 105 [exPollAttempt] exPollRegistry
           (pollRequests exEnv 105 [exPollAttempt] exPollRegistry).2 1
           exRequestQ);
    vm_compute; reflexivity.
Defined.

(** X14. Rows read while this node inserted a request are never applied:
    when a read of the poller returns and local inserts happened meanwhile
    (fewer than 2^64 of them), the poller discards the rows and reads
    again. *)
Theorem X14_concurrent_insert_forces_retry env now a rest r rows :
  QueryIteratorEx (pollStmt (sampledStmtDiagReqsActive env) (attemptSqlNow a))
    (attemptStore a) = Ok rows →
  - 2 ^ 63 ≤ epoch r ≤ maxInt64 →
  0 < inserts (concurrent a) < 2 ^ 64 →
  pollRequests env now (a :: rest) r
  = pollRequests env now rest (runLocals (concurrent a) r).
Proof.
  intros Hq He Hk. simpl. rewrite Hq.
  assert (epoch (runLocals (concurrent a) r) ≠ epoch r) as Hne.
  { rewrite runLocals_epoch.
    destruct (Z.eqb_spec (inserts (concurrent a)) 0); [lia|].
    by apply wrap64_moved. }
  by rewrite (proj2 (Z.eqb_neq _ _) Hne).
Qed.

Lemma X14_concurrent_insert_forces_retry_witness :
  pollRequests exEnv 106 [exRacingAttempt; exPollAttempt] exPollRegistry
  = pollRequests exEnv 106 [exPollAttempt]
      (runLocals (concurrent exRacingAttempt) exPollRegistry).
Proof.
  apply (X14_concurrent_insert_forces_retry exEnv 106 exRacingAttempt
           [exPollAttempt] exPollRegistry (attemptRows exEnv exRacingAttempt)).
  - vm_compute. reflexivity.
  - vm_compute. split; discriminate.
  - vm_compute. split; reflexivity.
Defined.

(** X15. With a chunk size that is not positive the chunking loop does not
    complete on a non-empty bundle: a negative size panics on the slice, and
    with size zero every turn writes an empty chunk and leaves the bundle
    whole.  So for a request that is open, or for no request, the call never
    succeeds and the catalog is left as it was.  The setting's validator
    accepts exactly the sizes of at least 16 bytes. *)
Theorem X15_nonpositive_chunk_size_never_completes fuel env now requestID fp
    stmt bundle cerr w :
  bundleChunkSize env ≤ 0 →
  bundle ≠ [] →
  requestID = 0 ∨ isOpen (cat (store w)) requestID = true →
  (∀ acc st ids st',
     insertChunks fuel (bundleChunkSize env) bundle acc st ≠ (Ok ids, st'))
  ∧ (∀ d, (InsertStatementDiagnostics fuel env now requestID fp stmt bundle
             cerr w).1 ≠ Ok d)
  ∧ cat (store (InsertStatementDiagnostics fuel env now requestID fp stmt
                  bundle cerr w).2) = cat (store w)
  ∧ (∀ val, bundleChunkSizeValidate val = None ↔ 16 ≤ val).
Proof.
  intros Hs Hne Ho.
  assert (∀ acc st ids st',
            insertChunks fuel (bundleChunkSize env) bundle acc st
            ≠ (Ok ids, st')) as Hloop
    by (intros; by apply insertChunks_stuck).
  split; [done|].
  assert (∀ d, (InsertStatementDiagnostics fuel env now requestID fp stmt bundle
                  cerr w).1 ≠ Ok d) as Hno.
  { intros d Hok.
    destruct (InsertStatementDiagnostics fuel env now requestID fp stmt bundle
                cerr w) as [res w'] eqn:Hi.
    simpl in Hok. subst res.
    unfold InsertStatementDiagnostics in Hi.
    destruct (Txn _ (store w)) as [res s'] eqn:HT.
    injection Hi as -> _.
    apply Txn_Ok, insertStatementDiagnosticsTxn_Ok in HT.
    destruct HT as [(Hn0 & Hcl & _)|(_ & st0 & ids & st1 & st2 & _ & Hch & _)].
    - destruct Ho as [->|Ho]; [done|]. by rewrite Ho in Hcl.
    - by apply Hloop in Hch. }
  split; [done|].
  split; [by apply InsertStatementDiagnostics_failed|].
  intros val. unfold bundleChunkSizeValidate.
  destruct (Z.ltb_spec val 16); split; (done || lia).
Qed.

Lemma X15_nonpositive_chunk_size_never_completes_witness :
  (∀ acc st ids st',
     insertChunks 50 (bundleChunkSize (mkEnv true true 0)) exBundle20 acc st
     ≠ (Ok ids, st'))
  ∧ (∀ d, (InsertStatementDiagnostics 50 (mkEnv true true 0) 200 0 "Q"
             "SELECT 1" exBundle20 None exWorld).1 ≠ Ok d)
  ∧ cat (store (InsertStatementDiagnostics 50 (mkEnv true true 0) 200 0 "Q"
                  "SELECT 1" exBundle20 None exWorld).2) = cat (store exWorld)
  ∧ (∀ val, bundleChunkSizeValidate val = None ↔ 16 ≤ val).
Proof.
  apply (X15_nonpositive_chunk_size_never_completes 50 (mkEnv true true 0) 200 0
           "Q" "SELECT 1" exBundle20 None exWorld).
  - simpl. lia.
  - discriminate.
  - by left.
Defined.

(** ** Gossip notifications *)

Section Gossip.

Lemma byteOfZ_value z : Z.of_N (Byte.to_N (byteOfZ z)) = z mod 256.
Proof.
  unfold byteOfZ.
  pose proof (Z.mod_pos_bound z 256 ltac:(lia)) as Hb.
  destruct (Byte.of_N (Z.to_N (z mod 256))) as [b|] eqn:Hof.
  - apply Byte.to_of_N in Hof. simpl. rewrite Hof. lia.
  - apply Byte.of_N_None_iff in Hof. lia.
Qed.

(** The bytes [PutUint64] writes from position [k] on, read back least
    significant first. *)
Lemma leValue_bytes v n k :
  0 ≤ v →
  leValue (map (λ i, byteOfZ (Z.shiftr v (8 * Z.of_nat i))) (seq k n))
  = (v / 2 ^ (8 * Z.of_nat k)) mod 2 ^ (8 * Z.of_nat n).
Proof.
  intros Hv. revert k. induction n as [|n IH]; intros k.
  - simpl. by rewrite Z.mod_1_r.
  - cbn [seq map]. unfold leValue in *. cbn [foldr].
    rewrite IH, byteOfZ_value, Z.shiftr_div_pow2 by lia.
    replace (2 ^ (8 * Z.of_nat (S n))) with (256 * 2 ^ (8 * Z.of_nat n)).
    2:{ replace (8 * Z.of_nat (S n)) with (8 + 8 * Z.of_nat n) by lia.
        rewrite Z.pow_add_r by lia. done. }
    rewrite Z.rem_mul_r by lia.
    replace (2 ^ (8 * Z.of_nat (S k)))
      with (2 ^ (8 * Z.of_nat k) * 256).
    2:{ replace (8 * Z.of_nat (S k)) with (8 * Z.of_nat k + 8) by lia.
        rewrite Z.pow_add_r by lia. done. }
    rewrite <- Z.div_div by lia. done.
Qed.

Lemma PutUint64_length v : length (PutUint64 v) = 8%nat.
Proof. done. Qed.

Lemma Uint64_PutUint64 v : 0 ≤ v < 2 ^ 64 → Uint64 (PutUint64 v) = Ok v.
Proof.
  intros Hv. unfold Uint64. rewrite PutUint64_length. simpl Nat.ltb. cbv iota.
  rewrite take_ge by (by rewrite PutUint64_length).
  unfold PutUint64. rewrite leValue_bytes by lia.
  change (2 ^ (8 * Z.of_nat 0)) with 1. rewrite Z.div_1_r.
  change (2 ^ (8 * Z.of_nat 8)) with (2 ^ 64).
  by rewrite Z.mod_small.
Qed.

Lemma RequestID_uint64 id :
  - 2 ^ 63 ≤ id ≤ maxInt64 → RequestIDOfUint64 (uint64 id) = id.
Proof.
  unfold RequestIDOfUint64, uint64, wrap64, maxInt64. intros Hid.
  rewrite Zplus_mod_idemp_l. rewrite Z.mod_small; lia.
Qed.

End Gossip.

(** X16. The eight bytes [insertRequestInternal] and [CancelRequest] gossip
    for a request id decode to that id: given back to [gossipNotification]
    as the raw bytes, under the key of the message, they put the id into the
    matching channel when nothing waits there, and leave the other channel
    alone. *)
Theorem X16_gossip_payload_round_trip id :
  - 2 ^ 63 ≤ id ≤ maxInt64 →
  length (PutUint64 (uint64 id)) = 8%nat
  ∧ Uint64 (PutUint64 (uint64 id)) = Ok (uint64 id)
  ∧ RequestIDOfUint64 (uint64 id) = id
  ∧ (∀ keyName cancelCh,
       gossipNotification keyName (keyName KeyGossipStatementDiagnosticsRequest)
         (PutUint64 (uint64 id)) (mkChannels None cancelCh)
       = Ok (mkChannels (Some id) cancelCh))
  ∧ (∀ keyName updateCh,
       keyName KeyGossipStatementDiagnosticsRequestCancellation
       ≠ keyName KeyGossipStatementDiagnosticsRequest →
       gossipNotification keyName
         (keyName KeyGossipStatementDiagnosticsRequestCancellation)
         (PutUint64 (uint64 id)) (mkChannels updateCh None)
       = Ok (mkChannels updateCh (Some id))).
Proof.
  intros Hid.
  assert (Uint64 (PutUint64 (uint64 id)) = Ok (uint64 id)) as Hrt.
  { apply Uint64_PutUint64. unfold uint64. apply Z.mod_pos_bound. lia. }
  pose proof (RequestID_uint64 id Hid) as Hback.
  split; [done|]. split; [done|]. split; [done|].
  split.
  - intros keyName cancelCh. unfold gossipNotification.
    rewrite String.eqb_refl, Hrt. simpl. by rewrite Hback.
  - intros keyName updateCh Hne. unfold gossipNotification.
    rewrite (proj2 (String.eqb_neq _ _) Hne), String.eqb_refl, Hrt. simpl.
    by rewrite Hback.
Qed.

Lemma X16_gossip_payload_round_trip_witness :
  length (PutUint64 (uint64 1)) = 8%nat
  ∧ Uint64 (PutUint64 (uint64 1)) = Ok (uint64 1)
  ∧ RequestIDOfUint64 (uint64 1) = 1
  ∧ (∀ keyName cancelCh,
       gossipNotification keyName (keyName KeyGossipStatementDiagnosticsRequest)
         (PutUint64 (uint64 1)) (mkChannels None cancelCh)
       = Ok (mkChannels (Some 1) cancelCh))
  ∧ (∀ keyName updateCh,
       keyName KeyGossipStatementDiagnosticsRequestCancellation
       ≠ keyName KeyGossipStatementDiagnosticsRequest →
       gossipNotification keyName
         (keyName KeyGossipStatementDiagnosticsRequestCancellation)
         (PutUint64 (uint64 1)) (mkChannels updateCh None)
       = Ok (mkChannels updateCh (Some 1))).
Proof.
  apply (X16_gossip_payload_round_trip 1).
  vm_compute. split; discriminate.
Defined.

(** X17. [gossipNotification] neither blocks nor piles up: while an id
    waits in the channel of the message's key the notification changes
    nothing, so the earlier id is the one delivered; a notification touches
    only the channel of its key; one under any other key is ignored,
    whatever it carries; and one under either of the two keys that carries
    fewer than eight bytes panics, the id being decoded before the send is
    tried. *)
Theorem X17_gossipNotification_never_piles_up keyName s rawBytes ch :
  keyName KeyGossipStatementDiagnosticsRequestCancellation
  ≠ keyName KeyGossipStatementDiagnosticsRequest →
  (s ≠ keyName KeyGossipStatementDiagnosticsRequest →
   s ≠ keyName KeyGossipStatementDiagnosticsRequestCancellation →
   gossipNotification keyName s rawBytes ch = Ok ch)
  ∧ (s = keyName KeyGossipStatementDiagnosticsRequest
     ∨ s = keyName KeyGossipStatementDiagnosticsRequestCancellation →
     (length rawBytes < 8)%nat →
     gossipNotification keyName s rawBytes ch = Halt Panicked)
  ∧ ((8 ≤ length rawBytes)%nat →
     (s = keyName KeyGossipStatementDiagnosticsRequest
      ∧ is_Some (gossipUpdateChan ch))
     ∨ (s = keyName KeyGossipStatementDiagnosticsRequestCancellation
        ∧ is_Some (gossipCancelChan ch)) →
     gossipNotification keyName s rawBytes ch = Ok ch)
  ∧ (∀ ch', gossipNotification keyName s rawBytes ch = Ok ch' →
       (s ≠ keyName KeyGossipStatementDiagnosticsRequest →
        gossipUpdateChan ch' = gossipUpdateChan ch)
       ∧ (s ≠ keyName KeyGossipStatementDiagnosticsRequestCancellation →
          gossipCancelChan ch' = gossipCancelChan ch)).
Proof.
  intros Hne. unfold gossipNotification, Uint64.
  split; [|split; [|split]].
  - intros H1 H2.
    by rewrite (proj2 (String.eqb_neq _ _) H1), (proj2 (String.eqb_neq _ _) H2).
  - intros Hs Hlen. apply Nat.ltb_lt in Hlen. rewrite Hlen.
    destruct Hs as [->| ->].
    + by rewrite String.eqb_refl.
    + by rewrite (proj2 (String.eqb_neq _ _) Hne), String.eqb_refl.
  - intros Hlen Hs. apply Nat.ltb_ge in Hlen. rewrite Hlen.
    destruct Hs as [[-> [v Hv]]|[-> [v Hv]]].
    + rewrite String.eqb_refl. destruct ch as [u c]. simpl in *. by subst u.
    + rewrite (proj2 (String.eqb_neq _ _) Hne), String.eqb_refl.
      destruct ch as [u c]. simpl in *. by subst c.
  - intros ch'.
    destruct (String.eqb_spec s (keyName KeyGossipStatementDiagnosticsRequest))
      as [->|H1].
    + destruct (length rawBytes <? 8)%nat; [done|].
      intros [= <-]. simpl. by split.
    + destruct (String.eqb_spec s
                  (keyName KeyGossipStatementDiagnosticsRequestCancellation))
        as [->|H2].
      * destruct (length rawBytes <? 8)%nat; [done|].
        intros [= <-]. simpl. by split.
      * by intros [= <-].
Qed.

Lemma X17_gossipNotification_never_piles_up_witness :
  ("stmt-diag-req"
   ≠ exKeyName KeyGossipStatementDiagnosticsRequest →
   "stmt-diag-req"
   ≠ exKeyName KeyGossipStatementDiagnosticsRequestCancellation →
   gossipNotification exKeyName "stmt-diag-req" (PutUint64 2)
     (mkChannels (Some 1) None)
   = Ok (mkChannels (Some 1) None))
  ∧ ("stmt-diag-req" = exKeyName KeyGossipStatementDiagnosticsRequest
     ∨ "stmt-diag-req"
       = exKeyName KeyGossipStatementDiagnosticsRequestCancellation →
     (length (PutUint64 2) < 8)%nat →
     gossipNotification exKeyName "stmt-diag-req" (PutUint64 2)
       (mkChannels (Some 1) None)
     = Halt Panicked)
  ∧ ((8 ≤ length (PutUint64 2))%nat →
     ("stmt-diag-req" = exKeyName KeyGossipStatementDiagnosticsRequest
      ∧ is_Some (gossipUpdateChan (mkChannels (Some 1) None)))
     ∨ ("stmt-diag-req"
        = exKeyName KeyGossipStatementDiagnosticsRequestCancellation
        ∧ is_Some (gossipCancelChan (mkChannels (Some 1) None))) →
     gossipNotification exKeyName "stmt-diag-req" (PutUint64 2)
       (mkChannels (Some 1) None)
     = Ok (mkChannels (Some 1) None))
  ∧ (∀ ch',
       gossipNotification exKeyName "stmt-diag-req" (PutUint64 2)
         (mkChannels (Some 1) None) = Ok ch' →
       ("stmt-diag-req" ≠ exKeyName KeyGossipStatementDiagnosticsRequest →
        gossipUpdateChan ch' = gossipUpdateChan (mkChannels (Some 1) None))
       ∧ ("stmt-diag-req"
          ≠ exKeyName KeyGossipStatementDiagnosticsRequestCancellation →
          gossipCancelChan ch' = gossipCancelChan (mkChannels (Some 1) None))).
Proof.
  apply (X17_gossipNotification_never_piles_up exKeyName "stmt-diag-req"
           (PutUint64 2) (mkChannels (Some 1) None)).
  discriminate.
Defined.

(** ** The polling loop *)

(** X18. Setting the poll interval to a non-positive value stops the
    timer, and setting it back to the value it had does not start it again:
    the deadline is recomputed from the last poll and the interval, is found
    equal to the one the timer was last set for (a deadline that is not the
    zero time), and the timer is left stopped.  A different positive
    interval sets it, to the last poll plus that interval. *)
Theorem X18_same_interval_leaves_timer_stopped interval stop t :
  0 < interval → stop ≤ 0 → lastPoll t + interval ≠ 0 →
  let t2 := maybeResetTimer stop (maybeResetTimer interval t) in
  timer t2 = None
  ∧ maybeResetTimer interval t2 = t2
  ∧ ∀ interval', 0 < interval' → interval' ≠ interval →
      maybeResetTimer interval' t2
      = mkPollTimer (lastPoll t) (lastPoll t + interval')
          (Some (lastPoll t + interval')).
Proof.
  intros Hi Hs Hnz t2.
  assert (t2 = mkPollTimer (lastPoll t) (lastPoll t + interval) None) as ->.
  { unfold t2, maybeResetTimer.
    rewrite (proj2 (Z.leb_gt _ _) Hi), (proj2 (Z.leb_le _ _) Hs).
    destruct (IsZero (deadline t) || negb (deadline t =? lastPoll t + interval))
      eqn:Hc; simpl; [done|].
    apply orb_false_iff in Hc as [_ Hc]. apply negb_false_iff in Hc.
    apply Z.eqb_eq in Hc. by rewrite Hc. }
  split; [done|]. unfold maybeResetTimer, IsZero. simpl.
  split.
  - rewrite (proj2 (Z.leb_gt _ _) Hi), Z.eqb_refl.
    by rewrite (proj2 (Z.eqb_neq _ _) Hnz).
  - intros interval' Hi' Hne.
    rewrite (proj2 (Z.leb_gt _ _) Hi').
    assert ((lastPoll t + interval =? lastPoll t + interval') = false) as ->
      by (apply Z.eqb_neq; lia).
    simpl. by rewrite orb_true_r.
Qed.

Lemma X18_same_interval_leaves_timer_stopped_witness :
  let t2 := maybeResetTimer 0 (maybeResetTimer 10 (mkPollTimer 100 0 None)) in
  timer t2 = None
  ∧ maybeResetTimer 10 t2 = t2
  ∧ ∀ interval', 0 < interval' → interval' ≠ 10 →
      maybeResetTimer interval' t2
      = mkPollTimer (lastPoll (mkPollTimer 100 0 None))
          (lastPoll (mkPollTimer 100 0 None) + interval')
          (Some (lastPoll (mkPollTimer 100 0 None) + interval')).
Proof.
  apply (X18_same_interval_leaves_timer_stopped 10 0 (mkPollTimer 100 0 None));
    simpl; lia.
Defined.

(** X19. A turn of the polling loop that the timer starts polls, and when
    the poll returns, with or without an error, the context not being
    cancelled, the loop goes on, the registry is the one the poll left, and,
    the clock having moved since the poll before, the next turn sets the
    timer to one interval after the end of this poll. *)
Theorem X19_timer_poll_reschedules env interval now pollNow after attempts r t :
  0 < interval → after ≠ lastPoll t →
  (∀ h, (pollRequests env pollNow attempts r).1 ≠ Halt h) →
  let out := pollIteration env interval now pollNow after attempts false
               EvTimer r t in
  out.1.1 = (pollRequests env pollNow attempts r).2
  ∧ out.2 = true
  ∧ lastPoll out.1.2 = after
  ∧ timer out.1.2 = None
  ∧ maybeResetTimer interval out.1.2
    = mkPollTimer after (after + interval) (Some (after + interval)).
Proof.
  intros Hi Hclock Hret out.
  assert (deadline (maybeResetTimer interval t) = lastPoll t + interval
          ∧ lastPoll (maybeResetTimer interval t) = lastPoll t) as [Hd Hl].
  { unfold maybeResetTimer. rewrite (proj2 (Z.leb_gt _ _) Hi).
    destruct (IsZero (deadline t) || negb (deadline t =? lastPoll t + interval))
      eqn:Hc; simpl; [done|].
    apply orb_false_iff in Hc as [_ Hc]. apply negb_false_iff in Hc.
    by apply Z.eqb_eq in Hc. }
  assert (out = ((pollRequests env pollNow attempts r).2,
                 mkPollTimer after (lastPoll t + interval) None, true)) as ->.
  { unfold out, pollIteration, pollOnce. simpl. rewrite Hd.
    destruct (pollRequests env pollNow attempts r) as [[[]|e|h] r'] eqn:Hp;
      simpl; try done.
    by destruct (Hret h). }
  simpl. split; [done|]. split; [done|]. split; [done|]. split; [done|].
  unfold maybeResetTimer. simpl. rewrite (proj2 (Z.leb_gt _ _) Hi).
  assert ((lastPoll t + interval =? after + interval) = false) as ->
    by (apply Z.eqb_neq; lia).
  simpl. by rewrite orb_true_r.
Qed.

Lemma X19_timer_poll_reschedules_witness :
  let out := pollIteration exEnv 10 105 105 106 [exPollAttempt] false EvTimer
               exPollRegistry (mkPollTimer 95 105 (Some 105)) in
  out.1.1 = (pollRequests exEnv 105 [exPollAttempt] exPollRegistry).2
  ∧ out.2 = true
  ∧ lastPoll out.1.2 = 106
  ∧ timer out.1.2 = None
  ∧ maybeResetTimer 10 out.1.2 = mkPollTimer 106 (106 + 10) (Some (106 + 10)).
Proof.
  apply (X19_timer_poll_reschedules exEnv 10 105 105 106 [exPollAttempt]
           exPollRegistry (mkPollTimer 95 105 (Some 105))).
  - lia.
  - simpl. lia.
  - intros h. vm_compute. discriminate.
Defined.

(** ** A request from insertion to its end *)

Section Lifecycle.

Lemma pollRequests_unlisted env now attempts r r' id :
  pollRequests env now attempts r = (Ok tt, r') →
  (∀ a row, a ∈ attempts →
     requests (cat (attemptStore a)) !! id = Some row →
     req_completed row = true ∨ notExpiredSQL (attemptSqlNow a) row = false) →
  requestFingerprints r' !! id = None.
Proof.
  intros Hpoll Hclosed.
  destruct (requestFingerprints r' !! id) as [f|] eqn:Hl; [|done].
  apply pollRequests_success in Hpoll as (k & a & Hk & _ & _ & ->).
  apply applyPoll_kept in Hl as [_ Hin].
  apply attemptRows_listed in Hin as (row & H1 & H2 & H3).
  destruct (Hclosed a row) as [Hc|Hx]; [by eapply list_elem_of_lookup_2|done|..];
    congruence.
Qed.

Lemma InsertStatementDiagnostics_closes fuel env now requestID fp stmt bundle
    cerr w diagID w' :
  InsertStatementDiagnostics fuel env now requestID fp stmt bundle cerr w
  = (Ok diagID, w') →
  requestID ≠ 0 →
  isOpen (cat (store w')) requestID = false.
Proof.
  unfold InsertStatementDiagnostics.
  destruct (Txn _ (store w)) as [res s'] eqn:HT.
  intros [= -> <-] Hne. simpl.
  apply Txn_Ok, insertStatementDiagnosticsTxn_Ok in HT.
  destruct HT as [(_ & Hcl & _ & ->)|(_ & st0 & ids & st1 & st2 & _ & _ & _ & Hrc)];
    [done|].
  by apply recordCompletion_step in Hrc as (_ & _ & Hc); apply Hc.
Qed.

End Lifecycle.

(** X20. Once [InsertStatementDiagnostics] has returned for a request, a
    poll that succeeds on the catalog as that call left it leaves the
    request out of the pending map, on whatever node and whatever that
    node's registry held. *)
Theorem X20_completed_request_dropped_by_poll fuel env now requestID fp stmt
    bundle cerr w diagID w' env' now' attempts r r' :
  InsertStatementDiagnostics fuel env now requestID fp stmt bundle cerr w
  = (Ok diagID, w') →
  requestID ≠ 0 →
  Forall (λ a, cat (attemptStore a) = cat (store w')) attempts →
  pollRequests env' now' attempts r = (Ok tt, r') →
  requestFingerprints r' !! requestID = None.
Proof.
  intros Hi Hne Hall Hpoll.
  pose proof (InsertStatementDiagnostics_closes _ _ _ _ _ _ _ _ _ _ _ Hi Hne)
    as Hcl.
  apply (pollRequests_unlisted env' now' attempts r r' requestID Hpoll).
  intros a row Ha Hl. left.
  rewrite Forall_forall in Hall. rewrite (Hall a Ha) in Hl.
  unfold isOpen in Hcl. rewrite Hl in Hcl. by apply negb_false_iff in Hcl.
Qed.

Lemma X20_completed_request_dropped_by_poll_witness :
  requestFingerprints
    (pollRequests exEnv 106 [exPollAfterDone] (registry exWorld1)).2 !! 1
  = None.
Proof.
  apply (X20_completed_request_dropped_by_poll 20 exEnv16 105 1 "Q" "SELECT 1"
           exBundle20 None exWorld1 4 exWorldDone1 exEnv 106 [exPollAfterDone]
           (registry exWorld1)
           (pollRequests exEnv 106 [exPollAfterDone] (registry exWorld1)).2).
  - vm_compute. reflexivity.
  - lia.
  - repeat constructor.
  - vm_compute. reflexivity.
Defined.

(** X21. Once [CancelRequest] has succeeded for a request, a poll that
    succeeds on the catalog as that call left it, reading after 1970, leaves
    the request out of the pending map, on whatever node; a node that has
    the request among its ongoing ones keeps it there. *)
Theorem X21_cancelled_request_dropped_by_poll env now id w w' env' now'
    attempts r r' :
  CancelRequest env now id w = (Ok tt, w') →
  Forall (λ a, cat (attemptStore a) = cat (store w')
               ∧ unixEpoch ≤ attemptSqlNow a) attempts →
  pollRequests env' now' attempts r = (Ok tt, r') →
  requestFingerprints r' !! id = None
  ∧ ∃ k, unconditionalOngoing r'
         = unconditionalOngoing (runLocals (interleaved k attempts) r).
Proof.
  intros Hc Hall Hpoll.
  apply CancelRequest_Ok in Hc as (row & _ & _ & _ & Hcat & _).
  split.
  - apply (pollRequests_unlisted env' now' attempts r r' id Hpoll).
    intros a row' Ha Hl. right.
    rewrite Forall_forall in Hall. destruct (Hall a Ha) as [Hca Ht].
    rewrite Hca, Hcat in Hl. simpl in Hl. rewrite lookup_insert_eq in Hl.
    injection Hl as <-. unfold notExpiredSQL, cancelledRow. simpl.
    apply Z.ltb_ge. lia.
  - apply pollRequests_success in Hpoll as (k & a & _ & _ & _ & ->).
    exists (S k). apply applyPoll_frame.
Qed.

Lemma X21_cancelled_request_dropped_by_poll_witness :
  requestFingerprints
    (pollRequests exEnv (unixEpoch + 106) [exPollAfterCancel]
       (registry exWorld1)).2 !! 1 = None
  ∧ ∃ k, unconditionalOngoing
           (pollRequests exEnv (unixEpoch + 106) [exPollAfterCancel]
              (registry exWorld1)).2
         = unconditionalOngoing
             (runLocals (interleaved k [exPollAfterCancel]) (registry exWorld1)).
Proof.
  apply (X21_cancelled_request_dropped_by_poll exEnv 105 1 exWorld1
           exWorldCancelled1 exEnv (unixEpoch + 106) [exPollAfterCancel]
           (registry exWorld1)
           (pollRequests exEnv (unixEpoch + 106) [exPollAfterCancel]
              (registry exWorld1)).2).
  - vm_compute. reflexivity.
  - repeat constructor. vm_compute. discriminate.
  - vm_compute. reflexivity.
Defined.

(** X22. A request inserted without sampling is served by the node that
    inserted it without waiting for a poll: when the registry knew neither
    the new id nor a pending request for the fingerprint, the next execution
    of the fingerprint on that node, before the request expires, is told to
    trace for the new request. *)
Theorem X22_inserted_request_served_locally env now fp lat ea w id w' now'
    order :
  insertRequestInternal env now fp f64_zero lat ea w = (Ok id, w') →
  id ≠ 0 →
  requestFingerprints (registry w) !! id = None →
  unconditionalOngoing (registry w) !! id = None →
  noPendingFor fp (registry w) →
  ea = 0 ∨ now' ≤ now + ea →
  rangeOrder order (registry w') →
  (ShouldCollectDiagnostics now' order fp (registry w')).1
  = (true, id, mkRequest fp f64_zero lat (if ea =? 0 then 0 else now + ea)).
Proof.
  intros Hi Hid Hp Ho Hno Hlive Hord.
  apply insertRequestInternal_Ok in Hi as (_ & exp & HT & Hreg & _).
  apply Txn_Ok, insertRequestTxn_Ok in HT as (-> & _).
  set (req := mkRequest fp f64_zero lat (if ea =? 0 then 0 else now + ea)).
  assert (∀ j, requestFingerprints (registry w') !! j
               = if decide (j = id) then Some req
                 else requestFingerprints (registry w) !! j) as Hlk.
  { intros j. rewrite Hreg, addRequestInternalLocked_lookup. simpl.
    destruct (decide (j = id)); [|done]. by rewrite Hp, Ho. }
  assert (isExpired req now' = false) as Hexp.
  { unfold isExpired, req, IsZero, Before. simpl.
    destruct (Z.eqb_spec ea 0) as [->|Hea]; [done|].
    destruct Hlive as [->|Hle]; [done|].
    apply andb_false_iff. right. apply Z.ltb_ge. lia. }
  assert (scanFingerprints now' fp order = ScanFound id req) as Hscan.
  { apply scanFingerprints_unique; try done.
    - apply (rangeOrder_elem order (registry w') id req Hord).
      rewrite Hlk. by rewrite decide_True.
    - intros id' req' Hin Hfp.
      apply (rangeOrder_elem order (registry w') id' req' Hord) in Hin.
      rewrite Hlk in Hin. destruct (decide (id' = id)) as [->|Hne].
      + by injection Hin as <-.
      + by destruct (Hno id' req' Hin). }
  unfold ShouldCollectDiagnostics. rewrite Hscan.
  destruct (decide (requestFingerprints (registry w') = ∅)) as [He|_].
  { specialize (Hlk id). rewrite He, lookup_empty, decide_True in Hlk; done. }
  rewrite (proj2 (Z.eqb_neq id 0) Hid).
  assert (∀ g, sample req g = (true, g)) as Hs by done.
  destruct (isConditional req); by rewrite Hs.
Qed.

Lemma X22_inserted_request_served_locally_witness :
  (ShouldCollectDiagnostics 105 [(1, exRequestQ)] "Q" (registry exWorld1)).1
  = (true, 1, mkRequest "Q" f64_zero 0 (if 10 =? 0 then 0 else 100 + 10)).
Proof.
  apply (X22_inserted_request_served_locally exEnv 100 "Q" 0 10 exWorld 1
           exWorld1 105 [(1, exRequestQ)]).
  - vm_compute. reflexivity.
  - lia.
  - vm_compute. reflexivity.
  - vm_compute. reflexivity.
  - intros id req. simpl. by rewrite lookup_empty.
  - right. lia.
  - unfold rangeOrder.
    replace (requestFingerprints (registry exWorld1))
      with ({[1 := exRequestQ]} : gmap Z Request) by (vm_compute; reflexivity).
    rewrite map_to_list_singleton. reflexivity.
Defined.

(** X23. The two transactions leave no trace when they fail: an
    [InsertRequest] that does not succeed leaves the catalog, the registry
    and the gossip log as they were, and an [InsertStatementDiagnostics] that
    does not succeed leaves the catalog as it was, the chunk rows written
    before the failure included; neither call ever touches the other
    part: [InsertStatementDiagnostics] never changes the registry or the
    gossip log. *)
Theorem X23_failed_transactions_leave_no_trace :
  (∀ env now fp sp lat ea w,
     (InsertRequest env now fp sp lat ea w).1 ≠ Ok tt →
     registry (InsertRequest env now fp sp lat ea w).2 = registry w
     ∧ gossipSent (InsertRequest env now fp sp lat ea w).2 = gossipSent w
     ∧ cat (store (InsertRequest env now fp sp lat ea w).2) = cat (store w))
  ∧ (∀ fuel env now requestID fp stmt bundle cerr w,
       (∀ d, (InsertStatementDiagnostics fuel env now requestID fp stmt bundle
                cerr w).1 ≠ Ok d) →
       cat (store (InsertStatementDiagnostics fuel env now requestID fp stmt
                     bundle cerr w).2) = cat (store w))
  ∧ (∀ fuel env now requestID fp stmt bundle cerr w,
       registry (InsertStatementDiagnostics fuel env now requestID fp stmt
                   bundle cerr w).2 = registry w
       ∧ gossipSent (InsertStatementDiagnostics fuel env now requestID fp stmt
                       bundle cerr w).2 = gossipSent w).
Proof.
  split; [|split].
  - intros env now fp sp lat ea w. rewrite InsertRequest_unfold. simpl.
    intros Hno. apply insertRequestInternal_failed.
    intros id Hok. rewrite Hok in Hno. done.
  - intros. by apply InsertStatementDiagnostics_failed.
  - intros. unfold InsertStatementDiagnostics.
    by destruct (Txn _ (store w)).
Qed.

(** X24. [IsExecLatencyConditionMet] answers whether the latency reached
    the request's threshold.  For a conditional request (or any request and
    a latency that is not negative) an answer [false] leaves the registry as
    [RemoveOngoing] would, and an answer [true] leaves it untouched; and a
    conditional request that has expired is out of the pending map once the
    execution has called both, whatever the latency was. *)
Theorem X24_unmet_latency_inlines_RemoveOngoing now id req lat r :
  isConditional req = true ∨ 0 ≤ lat →
  (IsExecLatencyConditionMet now id req lat r).1
  = (minExecutionLatency req <=? lat)
  ∧ ((IsExecLatencyConditionMet now id req lat r).1 = false →
     (IsExecLatencyConditionMet now id req lat r).2 = RemoveOngoing now id req r)
  ∧ ((IsExecLatencyConditionMet now id req lat r).1 = true →
     (IsExecLatencyConditionMet now id req lat r).2 = r)
  ∧ (isConditional req = true → isExpired req now = true →
     requestFingerprints
       (RemoveOngoing now id req (IsExecLatencyConditionMet now id req lat r).2)
       !! id = None).
Proof.
  intros Hc. unfold IsExecLatencyConditionMet, RemoveOngoing.
  destruct (Z.leb_spec (minExecutionLatency req) lat) as [Hle|Hgt].
  - simpl. split; [done|]. split; [done|]. split; [done|].
    intros -> ->. simpl. apply lookup_delete_eq.
  - assert (isConditional req = true) as Hcond.
    { destruct Hc as [Hc|Hc]; [done|].
      unfold isConditional. apply negb_true_iff, Z.eqb_neq. lia. }
    rewrite Hcond.
    destruct (isExpired req now) eqn:Hexp; simpl.
    + split; [done|]. split; [done|]. split; [done|].
      intros _ _. apply lookup_delete_eq.
    + split; [done|]. split; [done|]. split; done.
Qed.

Lemma X24_unmet_latency_inlines_RemoveOngoing_witness :
  (IsExecLatencyConditionMet 8 2 exRequestR 3 exRegistryR).1
  = (minExecutionLatency exRequestR <=? 3)
  ∧ ((IsExecLatencyConditionMet 8 2 exRequestR 3 exRegistryR).1 = false →
     (IsExecLatencyConditionMet 8 2 exRequestR 3 exRegistryR).2
     = RemoveOngoing 8 2 exRequestR exRegistryR)
  ∧ ((IsExecLatencyConditionMet 8 2 exRequestR 3 exRegistryR).1 = true →
     (IsExecLatencyConditionMet 8 2 exRequestR 3 exRegistryR).2 = exRegistryR)
  ∧ (isConditional exRequestR = true → isExpired exRequestR 8 = true →
     requestFingerprints
       (RemoveOngoing 8 2 exRequestR
          (IsExecLatencyConditionMet 8 2 exRequestR 3 exRegistryR).2)
       !! 2 = None).
Proof.
  apply (X24_unmet_latency_inlines_RemoveOngoing 8 2 exRequestR 3 exRegistryR).
  left. reflexivity.
Defined.
